(** * The screener of the stock-momentum front end

    A shallow embedding of the client-side logic of the repository:
    - the Screener component: the facet list [sectors], the filtered and
      sorted view [filteredStocks], the column-header handler
      [handleSort] and the setters of the criteria;
    - the Signals component: the toggle of its summary cards and
      [filteredSignals];
    - the App component: [isMarketOpen].

    JavaScript values are the primitive values a JSON response can
    carry.  The code only compares and tests numbers, so they are
    modelled by integers ([Z]): a price or a score counted in a fixed
    unit.  Strings are strings of bytes, which is what the text of the
    API is on the ASCII range.  The two coercions of the language
    between strings and numbers are parameters of the development:
    nothing proved here depends on how a numeral is read or printed. *)

From Stdlib Require Import ZArith Ascii DecimalString Sorting.Sorted Sorting.Permutation.
From stdpp Require Import gmap strings list sorting.

Local Open Scope string_scope.
Local Open Scope list_scope.
Local Open Scope Z_scope.

(** ** JavaScript values *)

Module JS.

(** The primitive values of a parsed JSON document, plus [undefined],
    which is what reading an absent property gives. *)
Inductive jsval : Type :=
  | JUndefined
  | JNull
  | JBool (b : bool)
  | JNum (z : Z)
  | JStr (s : string).

#[global] Instance jsval_eq_dec : EqDecision jsval.
Proof. solve_decision. Defined.

(** The outcome of running a piece of code: a value, or the [TypeError]
    thrown when something that is not a function is called. *)
Inductive result (A : Type) : Type :=
  | Ok (a : A)
  | TypeError.
Arguments Ok {A} a.
Arguments TypeError {A}.

#[global] Instance result_bind : MBind result := fun A B f m =>
  match m with
  | Ok a => f a
  | TypeError => TypeError
  end.

(** [v === w] on primitive values. *)
Definition strict_eq (v w : jsval) : bool := bool_decide (v = w).

(** [ToBoolean]. *)
Definition truthy (v : jsval) : bool :=
  match v with
  | JUndefined | JNull => false
  | JBool b => b
  | JNum z => negb (z =? 0)
  | JStr s => negb (String.eqb s "")
  end.

(** [v ?? d]: [d] replaces [null] and [undefined] only. *)
Definition nullish (v : jsval) : bool :=
  match v with
  | JUndefined | JNull => true
  | _ => false
  end.

Definition coalesce (v d : jsval) : jsval := if nullish v then d else v.

(** *** Strings *)

Definition lower_ascii (c : ascii) : ascii :=
  let n := N_of_ascii c in
  if ((65 <=? n) && (n <=? 90))%N then ascii_of_N (n + 32) else c.

(** [s.toLowerCase()], on the ASCII letters: the letters A to Z are
    lowered, every other byte is kept (the language also lowers the
    cased letters outside ASCII). *)
Fixpoint toLowerCase (s : string) : string :=
  match s with
  | EmptyString => EmptyString
  | String c s' => String (lower_ascii c) (toLowerCase s')
  end.

(** [s.includes(t)]: [t] occurs in [s] at some position. *)
Fixpoint includes (s t : string) : bool :=
  String.prefix t s ||
  match s with
  | EmptyString => false
  | String _ s' => includes s' t
  end.

(** *** Relational comparison *)

Section Coercions.

(** [StringToNumber s] is the number a string converts to, [None]
    standing for [NaN]; [NumberToString z] is the numeral of a number. *)
Variable StringToNumber : string -> option Z.
Variable NumberToString : Z -> string.

Definition ToNumber (v : jsval) : option Z :=
  match v with
  | JUndefined => None
  | JNull => Some 0
  | JBool b => Some (if b then 1 else 0)
  | JNum z => Some z
  | JStr s => StringToNumber s
  end.

Definition ToString (v : jsval) : string :=
  match v with
  | JUndefined => "undefined"
  | JNull => "null"
  | JBool b => if b then "true" else "false"
  | JNum z => NumberToString z
  | JStr s => s
  end.

(** [v < w]: two strings are compared as strings, unit by unit, anything
    else as numbers, and a comparison with [NaN] is false. *)
Definition js_lt (v w : jsval) : bool :=
  match v, w with
  | JStr s, JStr t => String.ltb s t
  | _, _ =>
      match ToNumber v, ToNumber w with
      | Some x, Some y => x <? y
      | _, _ => false
      end
  end.

(** [v > w] is [w < v] with the operands evaluated in the other order. *)
Definition js_gt (v w : jsval) : bool := js_lt w v.

End Coercions.

(** *** Arrays *)

(** [arr.filter(f)]: the elements [f] accepts, in order; an exception
    thrown by [f] ends the traversal. *)
Fixpoint array_filter {A} (f : A -> result bool) (arr : list A)
  : result (list A) :=
  match arr with
  | [] => Ok []
  | x :: rest =>
      keep ← f x;
      kept ← array_filter f rest;
      Ok (if keep : bool then x :: kept else kept)
  end.

(** [arr.sort(comparefn)].  ECMAScript leaves the order to the engine
    when [comparefn] is not a consistent comparator; the engines all run
    a comparison sort whose result is determined by the answers of
    [comparefn].  The model is insertion sort: an element moves right
    past the elements that [comparefn] puts before it.  What is proved
    below does not depend on where it places elements [comparefn] gives
    no consistent answer on. *)
Fixpoint insert_by {A} (comparefn : A -> A -> Z) (x : A) (sorted : list A)
  : list A :=
  match sorted with
  | [] => [x]
  | y :: rest =>
      if 0 <? comparefn x y then y :: insert_by comparefn x rest
      else x :: y :: rest
  end.

Fixpoint array_sort {A} (comparefn : A -> A -> Z) (arr : list A) : list A :=
  match arr with
  | [] => []
  | x :: rest => insert_by comparefn x (array_sort comparefn rest)
  end.

(** The comparison [arr.sort()] uses when it is given none:
    [undefined] goes last, the rest is ordered by [ToString]. *)
Definition default_compare (NumberToString : Z -> string) (x y : jsval) : Z :=
  match x, y with
  | JUndefined, JUndefined => 0
  | JUndefined, _ => 1
  | _, JUndefined => -1
  | _, _ =>
      let xString := ToString NumberToString x in
      let yString := ToString NumberToString y in
      if String.ltb xString yString then -1
      else if String.ltb yString xString then 1
      else 0
  end.

(** [[...new Set(arr)]]: the distinct values of [arr], each at the place
    of its first occurrence. *)
Fixpoint set_add_all (seen arr : list jsval) : list jsval :=
  match arr with
  | [] => seen
  | v :: rest =>
      set_add_all (if bool_decide (v ∈ seen) then seen else seen ++ [v]) rest
  end.

Definition new_Set (arr : list jsval) : list jsval := set_add_all [] arr.

(** *** Objects *)

(** A record of the API is an object whose properties hold primitive
    values; [prop o k] is [o.k] (or [o[k]]). *)
Abbreviation object := (gmap string jsval).

Definition prop (o : object) (k : string) : jsval :=
  default JUndefined (o !! k).

End JS.
Import JS.

(** ** The Screener component *)

Module Screener.

Record sort_config := { key : string; direction : string }.

(** The component's state: the fetched collection and the criteria. *)
Record state := {
  stocks : list object;
  searchTerm : string;
  sectorFilter : string;
  signalFilter : string;
  sortConfig : sort_config
}.

Definition initial : state :=
  {| stocks := []; searchTerm := ""; sectorFilter := ""; signalFilter := "";
     sortConfig := {| key := "momentum_score"; direction := "desc" |} |}.

(** [v?.toLowerCase().includes(term)]: [undefined] when [v] is [null] or
    [undefined]; a boolean or a number has no [toLowerCase] to call. *)
Definition lowered_includes (v : jsval) (term : string) : result jsval :=
  match v with
  | JUndefined | JNull => Ok JUndefined
  | JStr s => Ok (JBool (includes (toLowerCase s) term))
  | JBool _ | JNum _ => TypeError
  end.

(** The callback of the search filter; the right operand of [||] is
    evaluated only when the left one is falsy. *)
Definition search_callback (term : string) (s : object) : result bool :=
  onSymbol ← lowered_includes (prop s "symbol") term;
  if truthy onSymbol then Ok true
  else
    onName ← lowered_includes (prop s "name") term;
    Ok (truthy onName).

Definition sector_callback (sectorFilter : string) (s : object) : bool :=
  strict_eq (prop s "sector") (JStr sectorFilter).

Definition signal_callback (signalFilter : string) (s : object) : bool :=
  strict_eq (prop s "signal_type") (JStr signalFilter).

Section Coercions.

Variable StringToNumber : string -> option Z.
Variable NumberToString : Z -> string.

(** The comparison function handed to [result.sort]. *)
Definition comparator (cfg : sort_config) (a b : object) : Z :=
  let aVal := coalesce (prop a (key cfg)) (JNum 0) in
  let bVal := coalesce (prop b (key cfg)) (JNum 0) in
  if String.eqb (direction cfg) "asc" then
    if js_gt StringToNumber aVal bVal then 1 else -1
  else
    if js_lt StringToNumber aVal bVal then 1 else -1.

(** [sectors]: the facet list. *)
Definition sectors (stocks : list object) : list jsval :=
  let uniqueSectors :=
    new_Set (List.filter truthy ((fun s => prop s "sector") <$> stocks)) in
  array_sort (default_compare NumberToString) uniqueSectors.

(** [filteredStocks]: the view. *)
Definition filteredStocks (stocks : list object)
    (searchTerm sectorFilter signalFilter : string) (cfg : sort_config)
  : result (list object) :=
  let result := stocks in
  result ←
    (if truthy (JStr searchTerm) then
       let term := toLowerCase searchTerm in
       array_filter (search_callback term) result
     else Ok result);
  let result :=
    if truthy (JStr sectorFilter)
    then List.filter (sector_callback sectorFilter) result else result in
  let result :=
    if truthy (JStr signalFilter)
    then List.filter (signal_callback signalFilter) result else result in
  Ok (array_sort (comparator cfg) result).

Definition view (st : state) : result (list object) :=
  filteredStocks (stocks st) (searchTerm st) (sectorFilter st)
    (signalFilter st) (sortConfig st).

End Coercions.

(** [handleSort]: the state update of a click on a column header. *)
Definition handleSort (k : string) (prev : sort_config) : sort_config :=
  {| key := k;
     direction :=
       if String.eqb (key prev) k && String.eqb (direction prev) "desc"
       then "asc" else "desc" |}.

(** The events of the component. *)
Inductive event :=
  | Fetched (data : list object)
  | SearchInput (value : string)
  | SectorSelect (value : string)
  | SignalSelect (value : string)
  | HeaderClick (k : string)
  | ClearFilters.

Definition setStocks (v : list object) (st : state) : state :=
  {| stocks := v; searchTerm := searchTerm st;
     sectorFilter := sectorFilter st; signalFilter := signalFilter st;
     sortConfig := sortConfig st |}.

Definition setSearchTerm (v : string) (st : state) : state :=
  {| stocks := stocks st; searchTerm := v;
     sectorFilter := sectorFilter st; signalFilter := signalFilter st;
     sortConfig := sortConfig st |}.

Definition setSectorFilter (v : string) (st : state) : state :=
  {| stocks := stocks st; searchTerm := searchTerm st;
     sectorFilter := v; signalFilter := signalFilter st;
     sortConfig := sortConfig st |}.

Definition setSignalFilter (v : string) (st : state) : state :=
  {| stocks := stocks st; searchTerm := searchTerm st;
     sectorFilter := sectorFilter st; signalFilter := v;
     sortConfig := sortConfig st |}.

Definition setSortConfig (f : sort_config -> sort_config) (st : state)
  : state :=
  {| stocks := stocks st; searchTerm := searchTerm st;
     sectorFilter := sectorFilter st; signalFilter := signalFilter st;
     sortConfig := f (sortConfig st) |}.

Definition step (st : state) (e : event) : state :=
  match e with
  | Fetched data => setStocks data st
  | SearchInput value => setSearchTerm value st
  | SectorSelect value => setSectorFilter value st
  | SignalSelect value => setSignalFilter value st
  | HeaderClick k => setSortConfig (handleSort k) st
  | ClearFilters =>
      setSignalFilter "" (setSectorFilter "" (setSearchTerm "" st))
  end.

End Screener.

(** ** The Signals component *)

Module Signals.

(** [signals] is [data?.signals]: [None] until a response has arrived. *)
Record state := { signals : option (list object); filter : string }.

Definition setFilter (v : string) (st : state) : state :=
  {| signals := signals st; filter := v |}.

(** The click handler of the summary card of [type]. *)
Definition cardClick (type : string) (st : state) : state :=
  setFilter (if String.eqb (filter st) type then "" else type) st.

Definition filteredSignals (st : state) : option (list object) :=
  if truthy (JStr (filter st))
  then List.filter (Screener.signal_callback (filter st)) <$> signals st
  else signals st.

End Signals.

(** ** The App component *)

Module App.

(** What [isMarketOpen] reads of a [Date]: the local day of the week
    (0 is Sunday, 6 is Saturday), hour and minute. *)
Record date := { getDay : Z; getHours : Z; getMinutes : Z }.

Definition valid (d : date) : Prop :=
  0 <= getDay d <= 6 /\ 0 <= getHours d <= 23 /\ 0 <= getMinutes d <= 59.

Definition isMarketOpen (d : date) : bool :=
  let day := getDay d in
  let hours := getHours d in
  let minutes := getMinutes d in
  let totalMinutes := hours * 60 + minutes in
  if (day =? 0) || (day =? 6) then false
  else
    let marketOpen := 9 * 60 + 15 in
    let marketClose := 15 * 60 + 30 in
    (marketOpen <=? totalMinutes) && (totalMinutes <=? marketClose).

End App.

(** ** The store

    The arrays of the component live in a store; [stocks] is a reference
    into it.  The derivations are written again over the store, method
    call by method call, to tell the calls that build a new array from
    the one that writes into its receiver. *)

Module Store.

Inductive cell :=
  | Objects (arr : list object)
  | Values (arr : list jsval)
  | SetOf (elems : list jsval).

Abbreviation store := (list cell).
Abbreviation ref := nat.

Definition run (A : Type) : Type := store -> result (A * store).

#[global] Instance run_ret : MRet run := fun A a h => Ok (a, h).
#[global] Instance run_bind : MBind run := fun A B f m h =>
  match m h with
  | Ok (a, h') => f a h'
  | TypeError => TypeError
  end.

Definition lift {A} (r : result A) : run A := fun h =>
  match r with
  | Ok a => Ok (a, h)
  | TypeError => TypeError
  end.

Definition alloc (c : cell) : run ref := fun h => Ok (List.length h, h ++ [c]).

Definition write (l : ref) (c : cell) : run unit := fun h =>
  Ok (tt, <[l := c]> h).

Definition objects_at (l : ref) : run (list object) := fun h =>
  match h !! l with
  | Some (Objects arr) => Ok (arr, h)
  | _ => TypeError
  end.

Definition values_at (l : ref) : run (list jsval) := fun h =>
  match h !! l with
  | Some (Values arr) => Ok (arr, h)
  | _ => TypeError
  end.

Definition elems_at (l : ref) : run (list jsval) := fun h =>
  match h !! l with
  | Some (SetOf elems) => Ok (elems, h)
  | _ => TypeError
  end.

(** [[...arr]] *)
Definition spread (l : ref) : run ref :=
  arr ← objects_at l; alloc (Objects arr).

(** [arr.filter(f)] *)
Definition filter_objects (f : object -> result bool) (l : ref) : run ref :=
  arr ← objects_at l; kept ← lift (array_filter f arr); alloc (Objects kept).

(** [arr.sort(comparefn)] sorts [arr] itself and returns it. *)
Definition sort_objects (comparefn : object -> object -> Z) (l : ref)
  : run ref :=
  arr ← objects_at l;
  _ ← write l (Objects (array_sort comparefn arr));
  mret l.

(** [arr.map(f)] *)
Definition map_objects (f : object -> jsval) (l : ref) : run ref :=
  arr ← objects_at l; alloc (Values (f <$> arr)).

Definition filter_values (f : jsval -> bool) (l : ref) : run ref :=
  arr ← values_at l; alloc (Values (List.filter f arr)).

(** [new Set(arr)] *)
Definition set_of (l : ref) : run ref :=
  arr ← values_at l; alloc (SetOf (new_Set arr)).

(** [[...set]] *)
Definition spread_set (l : ref) : run ref :=
  elems ← elems_at l; alloc (Values elems).

Definition sort_values (comparefn : jsval -> jsval -> Z) (l : ref)
  : run ref :=
  arr ← values_at l;
  _ ← write l (Values (array_sort comparefn arr));
  mret l.

Section Coercions.

Variable StringToNumber : string -> option Z.
Variable NumberToString : Z -> string.

(** The body of the [useMemo] of [sectors]. *)
Definition sectors (stocks : ref) : run ref :=
  mapped ← map_objects (fun s => prop s "sector") stocks;
  filtered ← filter_values truthy mapped;
  set ← set_of filtered;
  uniqueSectors ← spread_set set;
  sort_values (default_compare NumberToString) uniqueSectors.

(** The body of the [useMemo] of [filteredStocks]. *)
Definition filteredStocks (stocks : ref)
    (searchTerm sectorFilter signalFilter : string)
    (cfg : Screener.sort_config) : run ref :=
  result ← spread stocks;
  result ←
    (if truthy (JStr searchTerm) then
       let term := toLowerCase searchTerm in
       filter_objects (Screener.search_callback term) result
     else mret result);
  result ←
    (if truthy (JStr sectorFilter) then
       filter_objects
         (fun s => Ok (Screener.sector_callback sectorFilter s)) result
     else mret result);
  result ←
    (if truthy (JStr signalFilter) then
       filter_objects
         (fun s => Ok (Screener.signal_callback signalFilter s)) result
     else mret result);
  _ ← sort_objects (Screener.comparator StringToNumber cfg) result;
  mret result.

End Coercions.

End Store.

(** ** Sample data *)

Module Sample.

(** An instance of the two coercions on which the examples run.
    [StringToNumber] reads an optionally signed run of decimal digits and
    the empty string (which is 0), as the language does, and gives [NaN]
    on a string with no numeric reading, such as a word; numerals with
    white space, a fraction, an exponent or a radix prefix are not used
    in the examples.  [NumberToString] prints an integer in decimal. *)
Definition digit_of (c : ascii) : option Z :=
  let n := N_of_ascii c in
  if ((48 <=? n) && (n <=? 57))%N then Some (Z.of_N (n - 48)) else None.

Fixpoint digits_value (acc : Z) (s : string) : option Z :=
  match s with
  | EmptyString => Some acc
  | String c s' => d ← digit_of c; digits_value (10 * acc + d) s'
  end.

Definition StringToNumber (s : string) : option Z :=
  match s with
  | EmptyString => Some 0
  | String "-" (String _ _ as ds) => Z.opp <$> digits_value 0 ds
  | String "+" (String _ _ as ds) => digits_value 0 ds
  | _ => digits_value 0 s
  end.

Definition NumberToString (z : Z) : string :=
  DecimalString.NilZero.string_of_int (Z.to_int z).

Definition object_of (properties : list (string * jsval)) : object :=
  list_to_map properties.

(** The three records of the scenario of the specification. *)
Definition A : object :=
  object_of [("symbol", JStr "A"); ("sector", JStr "IT");
             ("momentum_score", JNum 80)].
Definition B : object :=
  object_of [("symbol", JStr "B"); ("sector", JStr "IT");
             ("momentum_score", JNum 40)].
Definition C : object :=
  object_of [("symbol", JStr "C"); ("sector", JStr "Pharma");
             ("momentum_score", JNull)].

Definition records : list object := [A; B; C].

Definition numbered : object :=
  object_of [("symbol", JNum 7); ("momentum_score", JNum 5)].

Definition byScoreDesc : Screener.sort_config :=
  {| Screener.key := "momentum_score"; Screener.direction := "desc" |}.
Definition byScoreAsc : Screener.sort_config :=
  {| Screener.key := "momentum_score"; Screener.direction := "asc" |}.

(** Scores on both sides of 0, around the record C whose score is
    missing. *)
Definition gain : object :=
  object_of [("symbol", JStr "G"); ("momentum_score", JNum 2)].
Definition loss : object :=
  object_of [("symbol", JStr "L"); ("momentum_score", JNum (-3))].
Definition mixed : list object := [C; loss; gain].

(** Two records with a name. *)
Definition reliance : object :=
  object_of [("symbol", JStr "RELIANCE.NS");
             ("name", JStr "Reliance Industries");
             ("sector", JStr "Energy"); ("momentum_score", JNum 65)].
Definition infosys : object :=
  object_of [("symbol", JStr "INFY.NS"); ("name", JStr "Infosys");
             ("sector", JStr "IT"); ("momentum_score", JNum 71)].

(** The screener once the three records have arrived, and once "IT" has
    been chosen in the sector list. *)
Definition loaded : Screener.state :=
  Screener.step Screener.initial (Screener.Fetched records).
Definition onlyIT : Screener.state :=
  Screener.step loaded (Screener.SectorSelect "IT").

(** The Signals view showing the three records, filtered on "Buy". *)
Definition buyOnly : Signals.state :=
  {| Signals.signals := Some records; Signals.filter := "Buy" |}.

(** Wednesday 15:30 and Monday 09:14. *)
Definition wednesdayClose : App.date :=
  {| App.getDay := 3; App.getHours := 15; App.getMinutes := 30 |}.
Definition mondayEarly : App.date :=
  {| App.getDay := 1; App.getHours := 9; App.getMinutes := 14 |}.

End Sample.

(** ** The vocabulary of the specification *)

Module Spec.

(** [t] occurs in [s]. *)
Definition substring (t s : string) : Prop :=
  exists pre post, s = String.append pre (String.append t post).

(** A field of text that may be missing: a string, [null] or absent. *)
Definition text_or_absent (v : jsval) : Prop :=
  match v with
  | JStr _ | JNull | JUndefined => True
  | JBool _ | JNum _ => False
  end.

(** The fields the search reads are typed as the data model says. *)
Definition searchable (r : object) : Prop :=
  text_or_absent (prop r "symbol") /\ text_or_absent (prop r "name").

(** Case-insensitive substring match of [term] in a field. *)
Definition text_matches (term : string) (v : jsval) : bool :=
  match v with
  | JStr s => includes (toLowerCase s) (toLowerCase term)
  | _ => false
  end.

Definition matches_search (term : string) (r : object) : bool :=
  text_matches term (prop r "symbol") || text_matches term (prop r "name").

(** The conjunction of the active filters; an empty criterion is not
    active. *)
Definition passes (searchTerm sectorFilter signalFilter : string)
    (r : object) : bool :=
  (String.eqb searchTerm "" || matches_search searchTerm r)
  && (String.eqb sectorFilter ""
      || bool_decide (prop r "sector" = JStr sectorFilter))
  && (String.eqb signalFilter ""
      || bool_decide (prop r "signal_type" = JStr signalFilter)).

(** The record [r] with 0 written where its field [k] is missing. *)
Definition zero_filled (k : string) (r : object) : object :=
  if nullish (prop r k) then <[k := JNum 0]> r else r.


(** The order of [arr.sort()] on values other than [undefined]: by the
    text of the values, lexicographically. *)
Definition by_text (NumberToString : Z -> string) (v w : jsval) : Prop :=
  String.le (ToString NumberToString v) (ToString NumberToString w).

(** Clock reading [h1:m1] is not after [h2:m2]. *)
Definition clock_le (h1 m1 h2 m2 : Z) : Prop :=
  h1 < h2 \/ (h1 = h2 /\ m1 <= m2).

(** The states the screener can be in. *)
Inductive reachable : Screener.state -> Prop :=
  | reachable_initial : reachable Screener.initial
  | reachable_step st e :
      reachable st -> reachable (Screener.step st e).

End Spec.

(** ** More of the language *)

Module Relational.

Section Coercions.

Variable StringToNumber : string -> option Z.

(** [v <= w]: not [w < v], and false when the two do not compare. *)
Definition js_le (v w : jsval) : bool :=
  match v, w with
  | JStr s, JStr t => negb (String.ltb t s)
  | _, _ =>
      match ToNumber StringToNumber v, ToNumber StringToNumber w with
      | Some x, Some y => x <=? y
      | _, _ => false
      end
  end.

(** [v >= w]: not [v < w], and false when the two do not compare. *)
Definition js_ge (v w : jsval) : bool :=
  match v, w with
  | JStr s, JStr t => negb (String.ltb s t)
  | _, _ =>
      match ToNumber StringToNumber v, ToNumber StringToNumber w with
      | Some x, Some y => y <=? x
      | _, _ => false
      end
  end.

End Coercions.

End Relational.
Import Relational.

(** ** The helpers of the API service *)

Module Api.

(** [getSignalColor]: the [switch] compares with [===]. *)
Definition getSignalColor (signalType : jsval) : string :=
  if strict_eq signalType (JStr "Strong Buy")
  then "text-success-400 bg-success-500/20"
  else if strict_eq signalType (JStr "Buy")
  then "text-success-500 bg-success-500/10"
  else if strict_eq signalType (JStr "Hold")
  then "text-warning-400 bg-warning-500/20"
  else if strict_eq signalType (JStr "Sell")
  then "text-danger-400 bg-danger-500/20"
  else if strict_eq signalType (JStr "Avoid")
  then "text-danger-500 bg-danger-500/10"
  else "text-dark-400 bg-dark-700".

(** The signal types the views offer. *)
Definition signalTypes : list string :=
  ["Strong Buy"; "Buy"; "Hold"; "Sell"; "Avoid"].

Section Coercions.

Variable StringToNumber : string -> option Z.

Definition getScoreColor (score : jsval) : string :=
  if js_ge StringToNumber score (JNum 80)
  then "from-success-500 to-success-400"
  else if js_ge StringToNumber score (JNum 70)
  then "from-success-600 to-success-500"
  else if js_ge StringToNumber score (JNum 50)
  then "from-warning-500 to-warning-400"
  else if js_ge StringToNumber score (JNum 40)
  then "from-warning-600 to-warning-500"
  else "from-danger-500 to-danger-400".

End Coercions.

(** The gradients of [getScoreColor], from the lowest band up. *)
Definition scoreGradients : list string :=
  ["from-danger-500 to-danger-400"; "from-warning-600 to-warning-500";
   "from-warning-500 to-warning-400"; "from-success-600 to-success-500";
   "from-success-500 to-success-400"].

End Api.

(** ** What the row templates call *)

Module Jsx.

Fixpoint drop_chars (n : nat) (s : string) : string :=
  match n, s with
  | O, _ => s
  | S n', String _ s' => drop_chars n' s'
  | S _, EmptyString => EmptyString
  end.

(** [s.replace(pattern, replacement)] for a pattern that is a string:
    the first occurrence is replaced. *)
Fixpoint replace_first (pattern replacement s : string) : string :=
  if String.prefix pattern s
  then String.append replacement (drop_chars (String.length pattern) s)
  else
    match s with
    | EmptyString => EmptyString
    | String c s' => String c (replace_first pattern replacement s')
    end.

(** The symbol cell of a row of the screener and of a signal card:
    [record.symbol?.replace('.NS', '')].  A number or a boolean has no
    [replace] to call. *)
Definition symbol_cell (record : object) : result jsval :=
  match prop record "symbol" with
  | JUndefined | JNull => Ok JUndefined
  | JStr s => Ok (JStr (replace_first ".NS" "" s))
  | JBool _ | JNum _ => TypeError
  end.

(** [arr.map(f)], for an [f] that may throw. *)
Fixpoint array_map {A B} (f : A -> result B) (arr : list A)
  : result (list B) :=
  match arr with
  | [] => Ok []
  | x :: rest =>
      y ← f x;
      ys ← array_map f rest;
      Ok (y :: ys)
  end.

End Jsx.

(** ** The rest of the Screener component *)

Module ScreenerPage.

(** The three elements [SortIcon] can return: the two-way arrow of a
    column that is not the sort key, the down arrow, the up arrow. *)
Inductive icon := BothWays | Down | Up.

Definition SortIcon (sortConfig : Screener.sort_config) (columnKey : string)
  : icon :=
  if negb (String.eqb (Screener.key sortConfig) columnKey) then BothWays
  else if String.eqb (Screener.direction sortConfig) "desc" then Down
  else Up.

(** The component with its loading and error state. *)
Record page := {
  screener : Screener.state;
  loading : bool;
  error : option string
}.

Definition mounted : page :=
  {| screener := Screener.initial; loading := true; error := None |}.

(** What happens to the page: the three moments of a run of
    [fetchData] (its start, and its end in the [try] or in the [catch]
    branch, each followed by the [finally]), and the input of the user.
    [data] is [data.stocks]. *)
Inductive event :=
  | FetchStarted
  | FetchSucceeded (data : option (list object))
  | FetchFailed
  | Input (e : Screener.event).

Definition step (p : page) (e : event) : page :=
  match e with
  | FetchStarted =>
      {| screener := screener p; loading := true; error := error p |}
  | FetchSucceeded data =>
      {| screener :=
           Screener.step (screener p) (Screener.Fetched (default [] data));
         loading := false; error := error p |}
  | FetchFailed =>
      {| screener := screener p; loading := false;
         error := Some "Failed to load screener data" |}
  | Input e =>
      {| screener := Screener.step (screener p) e;
         loading := loading p; error := error p |}
  end.

Definition steps (p : page) (es : list event) : page := foldl step p es.

(** What the component shows: the skeleton, the error panel with its
    Retry button, or the table with the two counts of its header. *)
Inductive screen :=
  | Skeleton
  | ErrorPanel (message : string)
  | Table (rows : list object) (shown total : nat).

(** The body of the component: the view is computed, by the [useMemo]
    above the early returns, before the branch on [loading] and
    [error]; the rows of the table are built from it, each with its
    symbol cell. *)
Definition render (StringToNumber : string -> option Z) (p : page)
  : result screen :=
  rows ← Screener.view StringToNumber (screener p);
  if loading p then Ok Skeleton
  else
    match error p with
    | Some message => Ok (ErrorPanel message)
    | None =>
        _ ← Jsx.array_map Jsx.symbol_cell rows;
        Ok (Table rows (List.length rows)
              (List.length (Screener.stocks (screener p))))
    end.

End ScreenerPage.

(** ** The rest of the Signals component *)

Module SignalsPage.

(** The click on the cross of the filter indicator. *)
Definition clearClick (st : Signals.state) : Signals.state :=
  Signals.setFilter "" st.

(** The condition of the "No signals found" block, in the JSX the
    component returns once it is no longer loading:
    [!filteredSignals || filteredSignals.length === 0]. *)
Definition noSignals (st : Signals.state) : bool :=
  match Signals.filteredSignals st with
  | None => true
  | Some shown => Nat.eqb (List.length shown) 0
  end.

(** The component with its loading flag. *)
Record page := { content : Signals.state; loading : bool }.

Definition mounted : page :=
  {| content := {| Signals.signals := None; Signals.filter := "" |};
     loading := true |}.

(** The three moments of a run of [fetchSignals] (a failure is only
    logged), and the clicks.  [signals] is [result?.signals]. *)
Inductive event :=
  | FetchStarted
  | FetchSucceeded (signals : option (list object))
  | FetchFailed
  | CardClick (type : string)
  | ClearClick.

Definition step (p : page) (e : event) : page :=
  match e with
  | FetchStarted => {| content := content p; loading := true |}
  | FetchSucceeded signals =>
      {| content :=
           {| Signals.signals := signals;
              Signals.filter := Signals.filter (content p) |};
         loading := false |}
  | FetchFailed => {| content := content p; loading := false |}
  | CardClick type =>
      {| content := Signals.cardClick type (content p);
         loading := loading p |}
  | ClearClick =>
      {| content := clearClick (content p); loading := loading p |}
  end.

(** What the component shows: the skeleton, or the signal cards with or
    without the "No signals found" block under them. *)
Inductive screen :=
  | Skeleton
  | Cards (shown : list object) (noSignalsFound : bool).

(** The body of the component: the skeleton while loading; otherwise a
    card for each of [filteredSignals] (none when it is [undefined]),
    each with its symbol cell, and the block. *)
Definition render (p : page) : result screen :=
  if loading p then Ok Skeleton
  else
    let shown := default [] (Signals.filteredSignals (content p)) in
    _ ← Jsx.array_map Jsx.symbol_cell shown;
    Ok (Cards shown (noSignals (content p))).

End SignalsPage.

(** ** StockDetail *)

Module StockDetail.

Record status := { text : string; color : string }.

Section Coercions.

Variable StringToNumber : string -> option Z.

(** [getRsiStatus]; [None] is the [null] it returns. *)
Definition getRsiStatus (rsi : jsval) : option status :=
  if negb (truthy rsi) then None
  else if js_gt StringToNumber rsi (JNum 70)
  then Some {| text := "Overbought"; color := "text-danger-400" |}
  else if js_lt StringToNumber rsi (JNum 30)
  then Some {| text := "Oversold"; color := "text-success-400" |}
  else if js_ge StringToNumber rsi (JNum 50)
          && js_le StringToNumber rsi (JNum 65)
  then Some {| text := "Optimal"; color := "text-primary-400" |}
  else Some {| text := "Neutral"; color := "text-dark-400" |}.

End Coercions.

End StockDetail.

(** ** More vocabulary *)

Module Order.

(** The value the comparator reads in a record. *)
Definition key_value (k : string) (r : object) : jsval :=
  coalesce (prop r k) (JNum 0).

(** The sort key of the record is a number, or missing. *)
Definition numeric_key (k : string) (r : object) : Prop :=
  exists z, key_value k r = JNum z.

Definition key_number (k : string) (r : object) : Z :=
  match key_value k r with
  | JNum z => z
  | _ => 0
  end.

Definition key_le (k : string) (a b : object) : Prop :=
  key_number k a <= key_number k b.

(** A field that holds a boolean or a number. *)
Definition not_text (v : jsval) : Prop :=
  match v with
  | JBool _ | JNum _ => True
  | _ => False
  end.

(** The records on which the search callback throws: the symbol is not
    text, or the symbol does not match and the name is not text. *)
Definition search_raises (term : string) (r : object) : Prop :=
  not_text (prop r "symbol")
  \/ (Spec.text_matches term (prop r "symbol") = false
      /\ not_text (prop r "name")).

End Order.

(** * Properties *)

(** ** Strings *)

Lemma append_cons (c : ascii) (s t : string) :
  String.append (String c s) t = String c (String.append s t).
Proof. reflexivity. Qed.

Lemma prefix_app (t s : string) :
  String.prefix t s = true <-> exists post, s = String.append t post.
Proof.
  revert s. induction t as [|c t IH]; intros s; simpl.
  - destruct s; split; eauto.
  - setoid_rewrite append_cons. destruct s as [|d s]; simpl.
    + split; [discriminate | intros [post H]; discriminate].
    + destruct (Ascii.ascii_dec c d) as [->|Hne].
      * rewrite IH. split; intros [post H]; exists post; congruence.
      * split; [discriminate | intros [post H]; congruence].
Qed.

Lemma includes_substring (s t : string) :
  includes s t = true <-> Spec.substring t s.
Proof.
  unfold Spec.substring. induction s as [|c s IH]; cbn [includes].
  - rewrite orb_false_r, prefix_app. split.
    + intros [post H]. exists "", post. exact H.
    + intros ([|d pre] & post & H); [eauto | discriminate].
  - rewrite orb_true_iff, prefix_app, IH. split.
    + intros [[post H] | (pre & post & H)].
      * exists "", post. exact H.
      * exists (String c pre), post. rewrite append_cons. congruence.
    + intros ([|d pre] & post & H).
      * left. eauto.
      * right. exists pre, post. rewrite append_cons in H. congruence.
Qed.

Lemma compare_refl (s : string) : String.compare s s = Eq.
Proof.
  induction s as [|c s IH]; simpl; [reflexivity |].
  unfold Ascii.compare. rewrite N.compare_refl. exact IH.
Qed.

Lemma ltb_strict (s t : string) :
  String.ltb s t = true <-> String.le s t /\ s <> t.
Proof.
  unfold String.le, String.leb, String.ltb.
  destruct (String.compare s t) eqn:E; simpl.
  - apply String.compare_eq_iff in E. split; [discriminate | tauto].
  - split; [intros _ | reflexivity]. split; [exact I |].
    intros ->. rewrite compare_refl in E. discriminate.
  - split; [discriminate | intros [[] _]].
Qed.

Lemma ltb_false_le (s t : string) : String.ltb s t = false -> String.le t s.
Proof.
  intros H. destruct (total String.le t s) as [|Hle]; [assumption |].
  destruct (decide (s = t)) as [->|Hne]; [reflexivity |].
  assert (String.ltb s t = true) by (apply ltb_strict; auto). congruence.
Qed.

(** ** Arrays *)

Section ArraySort.

Context {A : Type}.
Implicit Types (comparefn : A -> A -> Z) (l : list A).

Lemma insert_by_perm comparefn x l : insert_by comparefn x l ≡ₚ x :: l.
Proof.
  induction l as [|y l IH]; simpl; [reflexivity |].
  destruct (0 <? comparefn x y); [| reflexivity].
  rewrite IH. apply perm_swap.
Qed.

(** Sorting only reorders. *)
Lemma array_sort_perm comparefn l : array_sort comparefn l ≡ₚ l.
Proof.
  induction l as [|x l IH]; simpl; [reflexivity |].
  rewrite insert_by_perm. by apply perm_skip.
Qed.

Lemma insert_by_ext comparefn comparefn' x l :
  (forall y, y ∈ l -> comparefn x y = comparefn' x y) ->
  insert_by comparefn x l = insert_by comparefn' x l.
Proof.
  induction l as [|y l IH]; intros H; simpl; [reflexivity |].
  rewrite <- (H y) by left.
  rewrite IH; [reflexivity |]. intros z Hz. apply H. by right.
Qed.

(** The order depends on the answers of [comparefn] on the elements of
    the array, and on nothing else. *)
Lemma array_sort_ext comparefn comparefn' l :
  (forall x y, x ∈ l -> y ∈ l -> comparefn x y = comparefn' x y) ->
  array_sort comparefn l = array_sort comparefn' l.
Proof.
  induction l as [|x l IH]; intros H; simpl; [reflexivity |].
  rewrite <- IH.
  - apply insert_by_ext. intros y Hy. apply H; [left |].
    right. by rewrite <- (array_sort_perm comparefn l).
  - intros y z Hy Hz. apply H; by right.
Qed.

Lemma array_sort_sorted comparefn (R : relation A) (P : A -> Prop) l :
  (forall x y, P x -> P y -> ~ 0 < comparefn x y -> R x y) ->
  (forall x y, P x -> P y -> 0 < comparefn x y -> R y x) ->
  Forall P l ->
  Sorted R (array_sort comparefn l).
Proof.
  intros Hle Hgt. induction l as [|x l IH]; intros HP; simpl.
  - constructor.
  - apply Forall_cons in HP as [Px HP]. specialize (IH HP).
    assert (HP' : Forall P (array_sort comparefn l))
      by (by rewrite array_sort_perm).
    clear HP. induction IH as [|y rest Hs IHs Hhd]; simpl.
    + repeat constructor.
    + apply Forall_cons in HP' as [Py HP'].
      destruct (0 <? comparefn x y) eqn:E.
      * apply Z.ltb_lt in E. constructor; [by apply IHs |].
        destruct Hhd as [|z rest' Hyz]; simpl.
        -- constructor. by apply Hgt.
        -- apply Forall_cons in HP' as [Pz _].
           destruct (0 <? comparefn x z); constructor; auto.
      * apply Z.ltb_ge in E. constructor; [by constructor |].
        constructor. apply Hle; auto. lia.
Qed.

End ArraySort.

Lemma insert_by_natural {A B} (f : A -> B)
    (comparefn : A -> A -> Z) (comparefn' : B -> B -> Z)
    (x : A) (l : list A) :
  (forall a b, comparefn' (f a) (f b) = comparefn a b) ->
  f <$> insert_by comparefn x l = insert_by comparefn' (f x) (f <$> l).
Proof.
  intros H. induction l as [|y l IH]; [reflexivity |].
  rewrite fmap_cons. cbn [insert_by]. rewrite H.
  destruct (0 <? comparefn x y); rewrite !fmap_cons; by rewrite ?IH.
Qed.

(** Sorting commutes with a relabelling of the elements that the
    comparison function does not see. *)
Lemma array_sort_natural {A B} (f : A -> B)
    (comparefn : A -> A -> Z) (comparefn' : B -> B -> Z) (l : list A) :
  (forall a b, comparefn' (f a) (f b) = comparefn a b) ->
  f <$> array_sort comparefn l = array_sort comparefn' (f <$> l).
Proof.
  intros H. induction l as [|x l IH]; [reflexivity |].
  rewrite fmap_cons. cbn [array_sort]. rewrite <- IH.
  by apply insert_by_natural.
Qed.

Lemma array_filter_pure {A} (f : A -> result bool) (g : A -> bool)
    (arr : list A) :
  Forall (fun x => f x = Ok (g x)) arr ->
  array_filter f arr = Ok (List.filter g arr).
Proof.
  induction 1 as [|x arr Hx _ IH]; simpl; [reflexivity |].
  rewrite Hx, IH. simpl. by destruct (g x).
Qed.

Lemma filter_filter {A} (f g : A -> bool) (l : list A) :
  List.filter g (List.filter f l) = List.filter (fun x => f x && g x) l.
Proof.
  induction l as [|x l IH]; simpl; [reflexivity |].
  destruct (f x); simpl; [destruct (g x) |]; by rewrite IH.
Qed.

Lemma filter_true {A} (f : A -> bool) (l : list A) :
  (forall x, f x = true) -> List.filter f l = l.
Proof.
  intros H. induction l as [|x l IH]; simpl; [reflexivity |].
  by rewrite H, IH.
Qed.

Lemma set_add_all_spec (seen arr : list jsval) :
  NoDup seen ->
  NoDup (set_add_all seen arr)
  /\ forall v, v ∈ set_add_all seen arr <-> v ∈ seen \/ v ∈ arr.
Proof.
  revert seen. induction arr as [|x arr IH]; intros seen Hnd; simpl.
  - split; [assumption |]. intros v. rewrite elem_of_nil. tauto.
  - case_bool_decide as Hx.
    + destruct (IH seen Hnd) as [? Hin]. split; [assumption |].
      intros v. rewrite Hin, elem_of_cons. intuition congruence.
    + destruct (IH (seen ++ [x])) as [? Hin].
      { apply NoDup_app. split_and!; [assumption | | apply NoDup_singleton].
        intros y Hy ->%list_elem_of_singleton. contradiction. }
      split; [assumption |]. intros v.
      rewrite Hin, elem_of_app, list_elem_of_singleton, elem_of_cons.
      tauto.
Qed.

Lemma new_Set_spec (arr : list jsval) :
  NoDup (new_Set arr) /\ forall v, v ∈ new_Set arr <-> v ∈ arr.
Proof.
  destruct (set_add_all_spec [] arr (NoDup_nil_2)) as [? Hin].
  split; [assumption |]. intros v. rewrite Hin, elem_of_nil. tauto.
Qed.

(** ** The view *)

Section View.

Variable StringToNumber : string -> option Z.

Lemma search_callback_matches (term : string) (r : object) :
  Spec.searchable r ->
  Screener.search_callback (toLowerCase term) r
  = Ok (Spec.matches_search term r).
Proof.
  unfold Spec.searchable, Spec.matches_search, Screener.search_callback.
  destruct (prop r "symbol") as [| | |?|sym]; simpl; try tauto;
    destruct (prop r "name") as [| | |?|nm]; simpl; try tauto; intros _;
    repeat match goal with
      | |- context [includes ?s ?t] => destruct (includes s t); simpl
      end;
    reflexivity.
Qed.

Lemma optional_filter {A} (criterion : string) (f : A -> bool)
    (l : list A) :
  (if truthy (JStr criterion) then List.filter f l else l)
  = List.filter (fun x => String.eqb criterion "" || f x) l.
Proof.
  simpl. destruct (String.eqb criterion ""); simpl; [| reflexivity].
  symmetry. by apply filter_true.
Qed.

(** The three filters in a row keep what passes their conjunction. *)
Lemma filteredStocks_passes (stocks : list object)
    (searchTerm sectorFilter signalFilter : string)
    (cfg : Screener.sort_config) :
  (searchTerm <> "" -> Forall Spec.searchable stocks) ->
  Screener.filteredStocks StringToNumber stocks searchTerm sectorFilter
    signalFilter cfg
  = Ok (array_sort (Screener.comparator StringToNumber cfg)
          (List.filter (Spec.passes searchTerm sectorFilter signalFilter)
             stocks)).
Proof.
  intros Hs. unfold Screener.filteredStocks.
  assert (E : (if truthy (JStr searchTerm)
               then array_filter
                      (Screener.search_callback (toLowerCase searchTerm))
                      stocks
               else Ok stocks)
              = Ok (List.filter
                      (fun r => String.eqb searchTerm ""
                                || Spec.matches_search searchTerm r)
                      stocks)).
  { simpl. destruct (String.eqb_spec searchTerm "") as [->|Hne]; simpl.
    - by rewrite filter_true.
    - apply array_filter_pure. eapply Forall_impl; [by apply Hs |].
      intros r Hr. by apply search_callback_matches. }
  rewrite E. cbn [mbind result_bind].
  rewrite !optional_filter, !filter_filter. do 2 f_equal.
  apply filter_ext. intros r. unfold Spec.passes.
  by rewrite andb_assoc.
Qed.

(** C1. For every collection of records (typed as the data model says
    where the search reads them) and every combination of [searchTerm],
    [sectorFilter] and [signalFilter], the view is computed, it holds
    exactly the records of the collection that pass every active filter
    (an empty criterion is always passed), each as often as the
    collection holds it, and with all criteria empty it is a reordering
    of the whole collection. *)
Theorem view_exactly_passing (stocks : list object)
    (searchTerm sectorFilter signalFilter : string)
    (cfg : Screener.sort_config) :
  (searchTerm <> "" -> Forall Spec.searchable stocks) ->
  exists view,
    Screener.filteredStocks StringToNumber stocks searchTerm sectorFilter
      signalFilter cfg = Ok view
    /\ view ≡ₚ
         List.filter (Spec.passes searchTerm sectorFilter signalFilter)
           stocks
    /\ (forall r,
          r ∈ view <->
          r ∈ stocks
          /\ Spec.passes searchTerm sectorFilter signalFilter r = true)
    /\ (searchTerm = "" -> sectorFilter = "" -> signalFilter = "" ->
        view ≡ₚ stocks).
Proof.
  intros Hs. eexists. split; [by apply filteredStocks_passes |].
  split; [apply array_sort_perm |]. split.
  - intros r. rewrite array_sort_perm, !list_elem_of_In.
    apply filter_In.
  - intros -> -> ->. rewrite array_sort_perm.
    by rewrite filter_true.
Qed.

(** ** The search *)

Lemma text_matches_substring (term : string) (v : jsval) :
  Spec.text_matches term v = true <->
  exists s, v = JStr s
    /\ Spec.substring (toLowerCase term) (toLowerCase s).
Proof.
  destruct v as [| | | |s]; simpl;
    try (split; [discriminate | intros (s & H & _); discriminate]).
  rewrite includes_substring. split.
  - intros H. by exists s.
  - intros (s' & [= <-] & H). exact H.
Qed.

Lemma passes_no_search (sectorFilter signalFilter : string) (r : object) :
  Spec.passes "" sectorFilter signalFilter r = true <->
  (sectorFilter = "" \/ prop r "sector" = JStr sectorFilter)
  /\ (signalFilter = "" \/ prop r "signal_type" = JStr signalFilter).
Proof.
  unfold Spec.passes. simpl.
  rewrite andb_true_iff, !orb_true_iff, !bool_decide_eq_true.
  by rewrite !String.eqb_eq.
Qed.

(** C8. For a non-empty [searchTerm] the search accepts a record (whose
    symbol and name are text or missing) exactly when the lower-cased
    term occurs in its lower-cased symbol or in its lower-cased name;
    an empty [searchTerm] removes no record (the view holds every record
    the other two filters let through); and over the three records of
    the scenario the term "b" leaves record B alone. *)
Theorem search_is_substring_match :
  (forall (term : string) (r : object),
     term <> "" -> Spec.searchable r ->
     exists accepted,
       Screener.search_callback (toLowerCase term) r = Ok accepted
       /\ (accepted = true <->
           (exists sym, prop r "symbol" = JStr sym
              /\ Spec.substring (toLowerCase term) (toLowerCase sym))
           \/ (exists nm, prop r "name" = JStr nm
                 /\ Spec.substring (toLowerCase term) (toLowerCase nm))))
  /\ (forall stocks sectorFilter signalFilter cfg,
        exists view,
          Screener.filteredStocks StringToNumber stocks "" sectorFilter
            signalFilter cfg = Ok view
          /\ forall r,
               r ∈ view <->
               r ∈ stocks
               /\ (sectorFilter = ""
                   \/ prop r "sector" = JStr sectorFilter)
               /\ (signalFilter = ""
                   \/ prop r "signal_type" = JStr signalFilter))
  /\ (forall cfg,
        Screener.filteredStocks StringToNumber Sample.records "b" "" "" cfg
        = Ok [Sample.B]).
Proof.
  split; [| split].
  - intros term r _ Hr. eexists.
    split; [by apply search_callback_matches |].
    unfold Spec.matches_search.
    by rewrite orb_true_iff, !text_matches_substring.
  - intros stocks sectorFilter signalFilter cfg.
    eexists. split; [by apply filteredStocks_passes |]. intros r.
    by rewrite array_sort_perm, list_elem_of_In, filter_In,
      <- list_elem_of_In, passes_no_search.
  - intros cfg. vm_compute. reflexivity.
Qed.

(** ** The comparator *)

Lemma js_lt_irrefl (v : jsval) : js_lt StringToNumber v v = false.
Proof.
  unfold js_lt. destruct v as [| |b|z|s]; simpl;
    try reflexivity; try apply Z.ltb_irrefl.
  - unfold String.ltb. by rewrite compare_refl.
Qed.

Lemma zero_filled_key (k : string) (r : object) :
  coalesce (prop (Spec.zero_filled k r) k) (JNum 0)
  = coalesce (prop r k) (JNum 0).
Proof.
  unfold Spec.zero_filled, coalesce.
  destruct (nullish (prop r k)) eqn:E; [| by rewrite E].
  unfold prop. by rewrite lookup_insert_eq.
Qed.

Lemma comparator_zero_filled (cfg : Screener.sort_config) (a b : object) :
  Screener.comparator StringToNumber cfg
    (Spec.zero_filled (Screener.key cfg) a)
    (Spec.zero_filled (Screener.key cfg) b)
  = Screener.comparator StringToNumber cfg a b.
Proof. unfold Screener.comparator. by rewrite !zero_filled_key. Qed.

Lemma comparator_verdict (cfg : Screener.sort_config) (a b : object) :
  Screener.comparator StringToNumber cfg a b = 1
  \/ Screener.comparator StringToNumber cfg a b = -1.
Proof.
  unfold Screener.comparator, js_gt.
  destruct (String.eqb _ _);
    match goal with |- context [js_lt ?f ?v ?w] => destruct (js_lt f v w) end;
    auto.
Qed.

Lemma comparator_tie (cfg : Screener.sort_config) (a b : object) :
  coalesce (prop a (Screener.key cfg)) (JNum 0)
  = coalesce (prop b (Screener.key cfg)) (JNum 0) ->
  Screener.comparator StringToNumber cfg a b = -1.
Proof.
  unfold Screener.comparator, js_gt. intros ->.
  rewrite js_lt_irrefl. by destruct (String.eqb _ _).
Qed.

(** C5. The comparator never reports equality: its verdict is 1 or -1
    for every pair of records, also when the two key values are equal.
    On equal key values the descending comparator is not the inverse of
    the ascending one: both answer -1, in either order of the pair, so
    a collection of equal-keyed records comes out of a descending sort as
    it comes out of an ascending one, not reversed, and the comparator
    leaves the place of such records to the sorting procedure. *)
Theorem comparator_never_equal (k : string) (a b : object) :
  let asc := {| Screener.key := k; Screener.direction := "asc" |} in
  let desc := {| Screener.key := k; Screener.direction := "desc" |} in
  (forall cfg,
     Screener.comparator StringToNumber cfg a b <> 0
     /\ (Screener.comparator StringToNumber cfg a b = 1
         \/ Screener.comparator StringToNumber cfg a b = -1))
  /\ (coalesce (prop a k) (JNum 0) = coalesce (prop b k) (JNum 0) ->
      Screener.comparator StringToNumber asc a b = -1
      /\ Screener.comparator StringToNumber desc a b = -1
      /\ Screener.comparator StringToNumber asc b a = -1
      /\ Screener.comparator StringToNumber desc b a = -1
      /\ Screener.comparator StringToNumber desc a b
         <> - Screener.comparator StringToNumber asc a b)
  /\ (forall l : list object,
        (forall x y, x ∈ l -> y ∈ l ->
           coalesce (prop x k) (JNum 0) = coalesce (prop y k) (JNum 0)) ->
        array_sort (Screener.comparator StringToNumber desc) l
        = array_sort (Screener.comparator StringToNumber asc) l).
Proof.
  intros asc desc. split_and!.
  - intros cfg. split; [| apply comparator_verdict].
    destruct (comparator_verdict cfg a b) as [-> | ->]; lia.
  - intros E.
    rewrite (comparator_tie asc a b), (comparator_tie desc a b),
      (comparator_tie asc b a), (comparator_tie desc b a) by done.
    split_and!; try reflexivity. lia.
  - intros l Hl. apply array_sort_ext. intros x y Hx Hy.
    rewrite (comparator_tie asc x y), (comparator_tie desc x y);
      [reflexivity | |]; simpl; auto.
Qed.


End View.


(** The search is where an ill-typed field raises an error: a symbol
    that arrived as a number has no [toLowerCase]. *)
Example search_raises_on_numeric_symbol :
  Screener.filteredStocks Sample.StringToNumber [Sample.numbered] "a" ""
    "" Sample.byScoreDesc = TypeError.
Proof. reflexivity. Qed.

(** ** The handlers *)

Lemma reachable_direction (st : Screener.state) :
  Spec.reachable st ->
  Screener.direction (Screener.sortConfig st) = "asc"
  \/ Screener.direction (Screener.sortConfig st) = "desc".
Proof.
  induction 1 as [|st e _ IH]; [by right |].
  destruct e; simpl; try exact IH.
  destruct (_ && _); auto.
Qed.

(** C7. In every state of the screener, a click on the header of the
    column that is the active sort key flips the direction (descending
    becomes ascending, ascending becomes descending), and a click on
    another column makes it the sort key with direction descending. *)
Theorem header_click_toggles (st : Screener.state) (k : string) :
  Spec.reachable st ->
  let cfg := Screener.sortConfig st in
  let cfg' :=
    Screener.sortConfig (Screener.step st (Screener.HeaderClick k)) in
  cfg' = Screener.handleSort k cfg
  /\ Screener.key cfg' = k
  /\ (k = Screener.key cfg ->
      (Screener.direction cfg = "desc" /\ Screener.direction cfg' = "asc")
      \/ (Screener.direction cfg = "asc"
          /\ Screener.direction cfg' = "desc"))
  /\ (k <> Screener.key cfg -> Screener.direction cfg' = "desc").
Proof.
  intros Hr. simpl. split_and!; try reflexivity.
  - intros ->. rewrite String.eqb_refl. simpl.
    destruct (reachable_direction st Hr) as [E | E]; rewrite E; auto.
  - intros Hne. destruct (String.eqb_spec (Screener.key (Screener.sortConfig st)) k)
      as [E | E]; [congruence | reflexivity].
Qed.

(** C6, as first stated, fails in the screener: with "IT" the active
    sector, choosing "IT" again leaves "IT" active, and the view keeps
    showing the two IT records instead of all three. *)
Lemma reselecting_sector_keeps_filter :
  Screener.sectorFilter Sample.onlyIT = "IT"
  /\ Screener.sectorFilter
       (Screener.step Sample.onlyIT (Screener.SectorSelect "IT")) = "IT"
  /\ Screener.view Sample.StringToNumber
       (Screener.step Sample.onlyIT (Screener.SectorSelect "IT"))
     = Ok [Sample.A; Sample.B]
  /\ Screener.view Sample.StringToNumber Sample.loaded
     = Ok [Sample.A; Sample.B; Sample.C].
Proof. vm_compute. auto. Qed.

(** C6, as amended. The toggle is that of the summary cards of the
    Signals view: a click on the card of the type that is the active
    filter clears the filter, and the list shown is again the whole list
    of signals in its order; a click on the card of another type makes
    that type the filter.  In the screener, choosing a sector or a signal
    makes the chosen value the filter, whatever the active one was, and
    Clear Filters empties the three criteria. *)
Theorem filter_toggle_is_in_signals (type : string) :
  (forall st, Signals.filter st = type ->
     Signals.filter (Signals.cardClick type st) = ""
     /\ Signals.filteredSignals (Signals.cardClick type st)
        = Signals.signals st)
  /\ (forall st, Signals.filter st <> type ->
        Signals.filter (Signals.cardClick type st) = type
        /\ Signals.signals (Signals.cardClick type st)
           = Signals.signals st)
  /\ (forall st value,
        Screener.sectorFilter
          (Screener.step st (Screener.SectorSelect value)) = value
        /\ Screener.signalFilter
             (Screener.step st (Screener.SignalSelect value)) = value)
  /\ (forall st,
        let st' := Screener.step st Screener.ClearFilters in
        Screener.searchTerm st' = "" /\ Screener.sectorFilter st' = ""
        /\ Screener.signalFilter st' = "").
Proof.
  split_and!.
  - intros st E. unfold Signals.cardClick, Signals.filteredSignals.
    rewrite E, String.eqb_refl. auto.
  - intros st Hne. unfold Signals.cardClick.
    destruct (String.eqb_spec (Signals.filter st) type);
      [contradiction | auto].
  - auto.
  - simpl. auto.
Qed.

(** ** The market clock *)

Example closed_before_the_bell : App.isMarketOpen Sample.mondayEarly = false.
Proof. reflexivity. Qed.

(** C10. [isMarketOpen] answers true for a local date and time exactly
    when the day is Monday to Friday and the clock reads between 09:15
    and 15:30, both included; on a Saturday or a Sunday it answers false
    whatever the time. *)
Theorem market_open_iff :
  (forall d, App.valid d ->
     App.isMarketOpen d = true <->
     1 <= App.getDay d <= 5
     /\ Spec.clock_le 9 15 (App.getHours d) (App.getMinutes d)
     /\ Spec.clock_le (App.getHours d) (App.getMinutes d) 15 30)
  /\ (forall d, App.getDay d = 0 \/ App.getDay d = 6 ->
        App.isMarketOpen d = false).
Proof.
  split.
  - intros [day h m] (Hd & Hh & Hm). unfold App.isMarketOpen, Spec.clock_le.
    simpl in *.
    destruct (day =? 0) eqn:E0; [apply Z.eqb_eq in E0; simpl; split; [discriminate | lia] |].
    destruct (day =? 6) eqn:E6; [apply Z.eqb_eq in E6; simpl; split; [discriminate | lia] |].
    apply Z.eqb_neq in E0, E6. simpl.
    rewrite andb_true_iff, !Z.leb_le. lia.
  - intros d [E | E]; unfold App.isMarketOpen; rewrite E; reflexivity.
Qed.

(** ** The facets *)

Section Facets.

Variable NumberToString : Z -> string.

Local Abbreviation by_text := (Spec.by_text NumberToString).

#[local] Instance JStr_inj : Inj (=) (=) JStr.
Proof. by intros s t [= ->]. Qed.

Lemma default_compare_le (v w : jsval) :
  v <> JUndefined -> w <> JUndefined ->
  ~ 0 < default_compare NumberToString v w -> by_text v w.
Proof.
  unfold Spec.by_text, default_compare. intros Hv Hw.
  set (x := ToString NumberToString v). set (y := ToString NumberToString w).
  destruct v, w; try congruence;
    (destruct (String.ltb x y) eqn:Exy;
     [intros _; by apply ltb_strict in Exy as [? _] |];
     destruct (String.ltb y x) eqn:Eyx; [lia |];
     intros _; by apply ltb_false_le).
Qed.

Lemma default_compare_gt (v w : jsval) :
  v <> JUndefined -> w <> JUndefined ->
  0 < default_compare NumberToString v w -> by_text w v.
Proof.
  unfold Spec.by_text, default_compare. intros Hv Hw.
  set (x := ToString NumberToString v). set (y := ToString NumberToString w).
  destruct v, w; try congruence;
    (destruct (String.ltb x y) eqn:Exy; [lia |];
     destruct (String.ltb y x) eqn:Eyx; [| lia];
     intros _; by apply ltb_strict in Eyx as [? _]).
Qed.

Lemma truthy_defined (v : jsval) : truthy v = true -> v <> JUndefined.
Proof. by destruct v. Qed.

Lemma texts_of (l : list jsval) :
  Forall (fun v => exists s, v = JStr s) l ->
  exists names, l = JStr <$> names.
Proof.
  induction 1 as [|v l [s ->] _ [names ->]].
  - by exists [].
  - by exists (s :: names).
Qed.

Lemma sorted_texts (names : list string) :
  Sorted by_text (JStr <$> names) -> Sorted String.le names.
Proof.
  induction names as [|s names IH]; [constructor |].
  rewrite fmap_cons. intros H. apply Sorted_inv in H as [Hs Hhd].
  constructor; [by apply IH |].
  destruct names; [constructor |].
  rewrite fmap_cons in Hhd. apply HdRel_inv in Hhd. by constructor.
Qed.

Lemma sectors_elem (stocks : list object) (v : jsval) :
  v ∈ Screener.sectors NumberToString stocks <->
  truthy v = true /\ exists r, r ∈ stocks /\ prop r "sector" = v.
Proof.
  unfold Screener.sectors. rewrite array_sort_perm.
  destruct (new_Set_spec
    (List.filter truthy ((fun s => prop s "sector") <$> stocks)))
    as [_ ->].
  rewrite list_elem_of_In, filter_In, <- list_elem_of_In, list_elem_of_fmap.
  split.
  - intros [(r & -> & Hr) Hv]. eauto.
  - intros (Hv & r & Hr & <-). eauto.
Qed.

(** C2. For every collection, the facet list has no duplicates, holds
    exactly the non-empty (truthy) sector values of the collection, and
    is sorted by the text of its values.  When the sectors are typed as
    the data model says (text, or missing), it is the list of the
    distinct non-empty sector names in lexicographic order, and no other
    list is: records with a [null], absent or empty sector add nothing. *)
Theorem facets_sorted_distinct (stocks : list object) :
  let facets := Screener.sectors NumberToString stocks in
  NoDup facets
  /\ (forall v, v ∈ facets <->
        truthy v = true /\ exists r, r ∈ stocks /\ prop r "sector" = v)
  /\ Sorted by_text facets
  /\ (Forall (fun r => Spec.text_or_absent (prop r "sector")) stocks ->
      exists names,
        facets = JStr <$> names
        /\ NoDup names
        /\ Sorted String.le names
        /\ (forall s, s ∈ names <->
              s <> "" /\ exists r, r ∈ stocks /\ prop r "sector" = JStr s)
        /\ (forall names',
              NoDup names' -> Sorted String.le names' ->
              (forall s, s ∈ names' <->
                 s <> ""
                 /\ exists r, r ∈ stocks /\ prop r "sector" = JStr s) ->
              names' = names)).
Proof.
  intros facets.
  assert (Hnd : NoDup facets).
  { unfold facets, Screener.sectors. rewrite array_sort_perm.
    apply new_Set_spec. }
  assert (Hin := sectors_elem stocks). fold facets in Hin.
  assert (Hs : Sorted by_text facets).
  { unfold facets, Screener.sectors.
    apply array_sort_sorted with (P := fun v => v <> JUndefined).
    - apply default_compare_le.
    - apply default_compare_gt.
    - apply Forall_forall. intros v Hv.
      apply new_Set_spec, list_elem_of_In, filter_In in Hv as [_ Hv].
      by apply truthy_defined. }
  split_and!; try assumption.
  intros Htyped.
  destruct (texts_of facets) as [names E].
  { apply Forall_forall. intros v (Hv & r & Hr & <-)%Hin.
    rewrite Forall_forall in Htyped. specialize (Htyped r Hr).
    destruct (prop r "sector"); try done. by eexists. }
  assert (Hnames : forall s, s ∈ names <->
            s <> "" /\ exists r, r ∈ stocks /\ prop r "sector" = JStr s).
  { intros s. rewrite <- (list_elem_of_fmap_inj JStr), <- E, Hin.
    simpl. rewrite negb_true_iff, String.eqb_neq. reflexivity. }
  exists names. rewrite E in Hnd, Hs.
  apply NoDup_fmap in Hnd; [| apply _].
  apply sorted_texts in Hs.
  split_and!; try done.
  intros names' Hnd' Hs' Hnames'.
  apply (Sorted_unique String.le); try done.
  apply NoDup_Permutation; try done.
  intros s. by rewrite Hnames, Hnames'.
Qed.

End Facets.

(** ** The store *)

Section StoreRuns.

Import Store.

Implicit Types (h pre : store) (l : ref).

Lemma bind_ok {A B} (m : run A) (f : A -> run B) h a h' :
  m h = Ok (a, h') -> (m ≫= f) h = f a h'.
Proof. unfold mbind, run_bind. by intros ->. Qed.

Lemma bind_raise {A B} (m : run A) (f : A -> run B) h :
  m h = TypeError -> (m ≫= f) h = TypeError.
Proof. unfold mbind, run_bind. by intros ->. Qed.

Lemma lookup_last pre (c : cell) : (pre ++ [c]) !! List.length pre = Some c.
Proof. by apply list_lookup_middle. Qed.

Lemma insert_last pre (c c' : cell) :
  <[List.length pre := c']> (pre ++ [c]) = pre ++ [c'].
Proof.
  replace (List.length pre) with (List.length pre + 0)%nat by lia.
  by rewrite insert_app_r.
Qed.

Lemma spread_run h l arr :
  h !! l = Some (Objects arr) ->
  spread l h = Ok (List.length h, h ++ [Objects arr]).
Proof.
  intros E. unfold spread.
  erewrite bind_ok; [reflexivity |]. unfold objects_at. by rewrite E.
Qed.

Lemma filter_objects_run f h l arr :
  h !! l = Some (Objects arr) ->
  filter_objects f l h
  = match array_filter f arr with
    | Ok kept => Ok (List.length h, h ++ [Objects kept])
    | TypeError => TypeError
    end.
Proof.
  intros E. unfold filter_objects.
  erewrite bind_ok; [| unfold objects_at; by rewrite E].
  destruct (array_filter f arr) as [kept|].
  - by erewrite bind_ok.
  - by erewrite bind_raise.
Qed.

Lemma sort_objects_run comparefn h l arr :
  h !! l = Some (Objects arr) ->
  sort_objects comparefn l h
  = Ok (l, <[l := Objects (array_sort comparefn arr)]> h).
Proof.
  intros E. unfold sort_objects.
  erewrite bind_ok; [| unfold objects_at; by rewrite E].
  by erewrite bind_ok.
Qed.

(** A filter that may be skipped: the working array stays the last cell
    of the store, and the cells before it are kept. *)
Lemma filter_step (active : bool) f pre arr kept :
  (active = true -> array_filter f arr = Ok kept) ->
  exists junk,
    (if active then filter_objects f (List.length pre)
     else mret (List.length pre)) (pre ++ [Objects arr])
    = Ok (List.length (pre ++ junk),
          (pre ++ junk) ++ [Objects (if active then kept else arr)]).
Proof.
  intros E. destruct active.
  - exists [Objects arr].
    by rewrite (filter_objects_run _ _ _ arr), E by (done || apply lookup_last).
  - exists []. by rewrite app_nil_r.
Qed.

Lemma pure_filter_step (active : bool) (g : object -> bool) pre arr :
  exists junk,
    (if active then filter_objects (fun s => Ok (g s)) (List.length pre)
     else mret (List.length pre)) (pre ++ [Objects arr])
    = Ok (List.length (pre ++ junk),
          (pre ++ junk)
            ++ [Objects (if active then List.filter g arr else arr)]).
Proof.
  apply filter_step. intros _. apply array_filter_pure.
  by apply Forall_forall.
Qed.

Variable StringToNumber : string -> option Z.
Variable NumberToString : Z -> string.

(** The run of [filteredStocks] over the store computes the view in a
    new array, the last cell of the store, and keeps the cells the store
    had. *)
Lemma filteredStocks_run h stocks recs
    (searchTerm sectorFilter signalFilter : string)
    (cfg : Screener.sort_config) :
  h !! stocks = Some (Objects recs) ->
  match Screener.filteredStocks StringToNumber recs searchTerm
          sectorFilter signalFilter cfg with
  | Ok view =>
      exists junk,
        Store.filteredStocks StringToNumber stocks searchTerm sectorFilter
          signalFilter cfg h
        = Ok (List.length (h ++ junk), (h ++ junk) ++ [Objects view])
  | TypeError =>
      Store.filteredStocks StringToNumber stocks searchTerm sectorFilter
        signalFilter cfg h = TypeError
  end.
Proof.
  intros E. unfold Screener.filteredStocks, Store.filteredStocks.
  rewrite (bind_ok _ _ _ _ _ (spread_run _ _ _ E)).
  set (search := Screener.search_callback (toLowerCase searchTerm)).
  set (bySector := Screener.sector_callback sectorFilter).
  set (bySignal := Screener.signal_callback signalFilter).
  destruct (if truthy (JStr searchTerm)
            then array_filter search recs else Ok recs)
    as [arr1|] eqn:E1; cbn [mbind result_bind].
  - destruct (filter_step (truthy (JStr searchTerm)) search h recs arr1)
      as [j1 R1].
    { intros Ht. by rewrite Ht in E1. }
    rewrite (bind_ok _ _ _ _ _ R1). clear R1.
    assert (E1' : (if truthy (JStr searchTerm) then arr1 else recs) = arr1).
    { destruct (truthy (JStr searchTerm)); congruence. }
    rewrite E1'. clear E1 E1'.
    destruct (pure_filter_step (truthy (JStr sectorFilter)) bySector
                (h ++ j1) arr1) as [j2 R2].
    rewrite (bind_ok _ _ _ _ _ R2). clear R2.
    set (arr2 := if truthy (JStr sectorFilter)
                 then List.filter bySector arr1 else arr1).
    destruct (pure_filter_step (truthy (JStr signalFilter)) bySignal
                ((h ++ j1) ++ j2) arr2) as [j3 R3].
    rewrite (bind_ok _ _ _ _ _ R3). clear R3.
    erewrite bind_ok; [| apply sort_objects_run, lookup_last].
    exists (j1 ++ j2 ++ j3). rewrite insert_last, !app_assoc.
    reflexivity.
  - destruct (truthy (JStr searchTerm)); [| discriminate].
    apply bind_raise.
    by rewrite (filter_objects_run _ _ _ recs), E1 by apply lookup_last.
Qed.

Lemma sectors_run h stocks recs :
  h !! stocks = Some (Objects recs) ->
  exists junk,
    Store.sectors NumberToString stocks h
    = Ok (List.length (h ++ junk),
          (h ++ junk) ++ [Values (Screener.sectors NumberToString recs)]).
Proof.
  intros E. unfold Store.sectors, Screener.sectors.
  set (mapped := (fun s => prop s "sector") <$> recs).
  set (filtered := List.filter truthy mapped).
  exists [Values mapped; Values filtered; SetOf (new_Set filtered)].
  assert (R1 : map_objects (fun s => prop s "sector") stocks h
               = Ok (List.length h, h ++ [Values mapped])).
  { unfold map_objects. erewrite bind_ok; [reflexivity |].
    unfold objects_at. by rewrite E. }
  rewrite (bind_ok _ _ _ _ _ R1). clear R1.
  set (h1 := h ++ [Values mapped]).
  assert (R2 : filter_values truthy (List.length h) h1
               = Ok (List.length h1, h1 ++ [Values filtered])).
  { unfold filter_values. erewrite bind_ok; [reflexivity |].
    unfold values_at, h1. by rewrite lookup_last. }
  rewrite (bind_ok _ _ _ _ _ R2). clear R2.
  set (h2 := h1 ++ [Values filtered]).
  assert (R3 : set_of (List.length h1) h2
               = Ok (List.length h2, h2 ++ [SetOf (new_Set filtered)])).
  { unfold set_of. erewrite bind_ok; [reflexivity |].
    unfold values_at, h2. by rewrite lookup_last. }
  rewrite (bind_ok _ _ _ _ _ R3). clear R3.
  set (h3 := h2 ++ [SetOf (new_Set filtered)]).
  assert (R4 : spread_set (List.length h2) h3
               = Ok (List.length h3, h3 ++ [Values (new_Set filtered)])).
  { unfold spread_set. erewrite bind_ok; [reflexivity |].
    unfold elems_at, h3. by rewrite lookup_last. }
  rewrite (bind_ok _ _ _ _ _ R4). clear R4.
  unfold sort_values.
  erewrite bind_ok; [| unfold values_at; by rewrite lookup_last].
  erewrite bind_ok; [| reflexivity]. unfold mret, run_ret.
  rewrite insert_last. unfold h3, h2, h1.
  by rewrite <- !app_assoc.
Qed.

Lemma appended_fresh h junk l (c0 : cell) :
  h !! l = Some c0 -> List.length (h ++ junk) <> l.
Proof.
  intros E%lookup_lt_Some. rewrite length_app. lia.
Qed.

Lemma appended_lookup h junk (c : cell) l (c0 : cell) :
  h !! l = Some c0 -> ((h ++ junk) ++ [c]) !! l = Some c0.
Proof.
  intros E. rewrite <- app_assoc, lookup_app_l; [done |].
  by eapply lookup_lt_Some.
Qed.

(** C9. Computing the view and the facets leaves the collection as it
    was.  Started in any store in which [stocks] refers to the array of
    the records, each derivation ends (or raises, when the pure
    derivation does) with its result in an array of its own, other than
    [stocks]; [stocks] still holds the same records in the same order,
    and so does every cell the store had: the sort writes into the copy. *)
Theorem derivations_leave_stocks_unchanged h stocks recs
    (searchTerm sectorFilter signalFilter : string)
    (cfg : Screener.sort_config) :
  h !! stocks = Some (Objects recs) ->
  match Screener.filteredStocks StringToNumber recs searchTerm
          sectorFilter signalFilter cfg with
  | Ok view =>
      exists result h',
        Store.filteredStocks StringToNumber stocks searchTerm sectorFilter
          signalFilter cfg h = Ok (result, h')
        /\ h' !! result = Some (Objects view)
        /\ result <> stocks
        /\ h' !! stocks = Some (Objects recs)
        /\ forall l c, h !! l = Some c -> h' !! l = Some c
  | TypeError =>
      Store.filteredStocks StringToNumber stocks searchTerm sectorFilter
        signalFilter cfg h = TypeError
  end
  /\ exists result h',
       Store.sectors NumberToString stocks h = Ok (result, h')
       /\ h' !! result
          = Some (Values (Screener.sectors NumberToString recs))
       /\ result <> stocks
       /\ h' !! stocks = Some (Objects recs)
       /\ forall l c, h !! l = Some c -> h' !! l = Some c.
Proof.
  intros E. split.
  - pose proof (filteredStocks_run h stocks recs searchTerm sectorFilter
                  signalFilter cfg E) as R.
    destruct (Screener.filteredStocks _ _ _ _ _ _) as [view|];
      [| exact R].
    destruct R as [junk R]. do 2 eexists. split; [exact R |].
    split; [apply lookup_last |].
    split; [by eapply appended_fresh |].
    split; [by apply appended_lookup |].
    intros l c Hl. by apply appended_lookup.
  - destruct (sectors_run h stocks recs E) as [junk R].
    do 2 eexists. split; [exact R |].
    split; [apply lookup_last |].
    split; [by eapply appended_fresh |].
    split; [by apply appended_lookup |].
    intros l c Hl. by apply appended_lookup.
Qed.

End StoreRuns.

(** Had the sort been called on [stocks] itself, the collection would
    have been reordered: the store tells the two apart. *)
Example sort_in_place_reorders :
  Store.sort_objects
    (Screener.comparator Sample.StringToNumber Sample.byScoreAsc) 0%nat
    [Store.Objects Sample.records]
  = Ok (0%nat, [Store.Objects [Sample.C; Sample.B; Sample.A]]).
Proof. vm_compute. reflexivity. Qed.

(** ** The theorems at work on the sample data *)

Ltac all_records tac :=
  repeat (constructor; [tac |]); constructor.

(** The view of the scenario for the term "b" within sector "IT". *)
Lemma view_exactly_passing_scenario :
  exists view,
    Screener.filteredStocks Sample.StringToNumber Sample.records "b" "IT" ""
      Sample.byScoreDesc = Ok view
    /\ view ≡ₚ List.filter (Spec.passes "b" "IT" "") Sample.records
    /\ (forall r,
          r ∈ view <->
          r ∈ Sample.records /\ Spec.passes "b" "IT" "" r = true)
    /\ ("b" = "" -> "IT" = "" -> "" = "" -> view ≡ₚ Sample.records).
Proof.
  apply (view_exactly_passing Sample.StringToNumber Sample.records
           "b" "IT" "" Sample.byScoreDesc).
  intros _. all_records ltac:(vm_compute; tauto).
Defined.

(** The facets of the scenario are the names "IT" and "Pharma". *)
Lemma facets_sorted_distinct_scenario :
  Forall (fun r => Spec.text_or_absent (prop r "sector")) Sample.records
  /\ exists names,
       Screener.sectors Sample.NumberToString Sample.records
       = JStr <$> names
       /\ NoDup names /\ Sorted String.le names.
Proof.
  assert (H : Forall (fun r => Spec.text_or_absent (prop r "sector"))
                Sample.records)
    by all_records ltac:(vm_compute; tauto).
  split; [exact H |].
  destruct (facets_sorted_distinct Sample.NumberToString Sample.records)
    as (_ & _ & _ & Htyped).
  destruct (Htyped H) as (names & E & Hnd & Hs & _).
  by exists names.
Defined.


(** Record C, whose score is missing, against itself with the score 0
    filled in: a tie. *)
Lemma comparator_never_equal_scenario :
  Screener.comparator Sample.StringToNumber Sample.byScoreAsc Sample.C
    (Spec.zero_filled "momentum_score" Sample.C) = -1
  /\ Screener.comparator Sample.StringToNumber Sample.byScoreDesc Sample.C
       (Spec.zero_filled "momentum_score" Sample.C) = -1.
Proof.
  destruct (comparator_never_equal Sample.StringToNumber "momentum_score"
              Sample.C (Spec.zero_filled "momentum_score" Sample.C))
    as (_ & H & _).
  destruct H as (Hasc & Hdesc & _).
  - vm_compute. reflexivity.
  - split; [exact Hasc | exact Hdesc].
Defined.

(** A second click on the "Buy" card shows all the signals again. *)
Lemma filter_toggle_is_in_signals_scenario :
  Signals.filter Sample.buyOnly = "Buy"
  /\ Signals.filter (Signals.cardClick "Buy" Sample.buyOnly) = ""
  /\ Signals.filteredSignals (Signals.cardClick "Buy" Sample.buyOnly)
     = Some Sample.records.
Proof.
  split; [reflexivity |].
  destruct (filter_toggle_is_in_signals "Buy") as (H & _).
  apply (H Sample.buyOnly). reflexivity.
Defined.

(** The first click on the score header, the initial sort key. *)
Lemma header_click_toggles_scenario :
  Screener.sortConfig
    (Screener.step Screener.initial (Screener.HeaderClick "momentum_score"))
  = Sample.byScoreAsc.
Proof.
  destruct (header_click_toggles Screener.initial "momentum_score"
              Spec.reachable_initial) as (E & _).
  exact E.
Defined.

(** Record B and the term "b". *)
Lemma search_is_substring_match_scenario :
  "b" <> ""
  /\ exists accepted,
       Screener.search_callback (toLowerCase "b") Sample.B = Ok accepted
       /\ (accepted = true <->
           (exists sym, prop Sample.B "symbol" = JStr sym
              /\ Spec.substring (toLowerCase "b") (toLowerCase sym))
           \/ (exists nm, prop Sample.B "name" = JStr nm
                 /\ Spec.substring (toLowerCase "b") (toLowerCase nm))).
Proof.
  split; [discriminate |].
  apply (proj1 (search_is_substring_match Sample.StringToNumber)).
  - discriminate.
  - vm_compute. tauto.
Defined.

(** The two derivations run in a store that holds the scenario. *)
Lemma derivations_leave_stocks_unchanged_scenario :
  exists view facets h1 h2,
    Store.filteredStocks Sample.StringToNumber 0%nat "b" "" ""
      Sample.byScoreDesc [Store.Objects Sample.records] = Ok (view, h1)
    /\ h1 !! 0%nat = Some (Store.Objects Sample.records)
    /\ Store.sectors Sample.NumberToString 0%nat
         [Store.Objects Sample.records] = Ok (facets, h2)
    /\ h2 !! 0%nat = Some (Store.Objects Sample.records).
Proof.
  destruct (derivations_leave_stocks_unchanged Sample.StringToNumber
              Sample.NumberToString [Store.Objects Sample.records] 0%nat
              Sample.records "b" "" "" Sample.byScoreDesc eq_refl)
    as [Hview (facets & h2 & R2 & _ & _ & F2 & _)].
  assert (E : Screener.filteredStocks Sample.StringToNumber Sample.records
                "b" "" "" Sample.byScoreDesc = Ok [Sample.B])
    by (vm_compute; reflexivity).
  rewrite E in Hview. destruct Hview as (view & h1 & R1 & _ & _ & F1 & _).
  by exists view, facets, h1, h2.
Defined.

(** Wednesday at 15:30 the market is still open. *)
Lemma market_open_iff_scenario :
  App.valid Sample.wednesdayClose
  /\ App.isMarketOpen Sample.wednesdayClose = true.
Proof.
  assert (V : App.valid Sample.wednesdayClose) by (vm_compute; intuition discriminate).
  split; [exact V |].
  apply (proj1 market_open_iff Sample.wednesdayClose V).
  unfold Spec.clock_le. simpl. lia.
Defined.

(** * More properties of the code *)

(** ** The view, whatever the records hold *)

Lemma filter_sublist {A} (g : A -> bool) (l : list A) :
  List.filter g l `sublist_of` l.
Proof.
  induction l as [|x l IH]; simpl; [constructor |].
  destruct (g x); by constructor.
Qed.

Lemma array_filter_sublist {A} (f : A -> result bool) (arr kept : list A) :
  array_filter f arr = Ok kept -> kept `sublist_of` arr.
Proof.
  revert kept. induction arr as [|x arr IH]; simpl; intros kept.
  - intros [= <-]. constructor.
  - destruct (f x) as [keep|]; [| discriminate].
    destruct (array_filter f arr) as [kept'|]; [| discriminate].
    cbn [mbind result_bind]. intros [= <-].
    destruct keep; constructor; by apply IH.
Qed.

Lemma array_filter_raises {A} (f : A -> result bool) (arr : list A) :
  array_filter f arr = TypeError <-> exists x, x ∈ arr /\ f x = TypeError.
Proof.
  induction arr as [|x arr IH]; simpl.
  - split; [discriminate | intros (x & Hx & _); by apply elem_of_nil in Hx].
  - destruct (f x) as [keep|] eqn:Ex; cbn [mbind result_bind].
    + destruct (array_filter f arr) as [kept|]; cbn [mbind result_bind].
      * split; [discriminate |].
        intros (y & [-> | Hy]%elem_of_cons & Ey); [congruence |].
        assert (C : Ok kept = TypeError) by (apply IH; eauto).
        discriminate.
      * split; [intros _ | reflexivity].
        destruct (proj1 IH eq_refl) as (y & Hy & Ey).
        exists y. split; [by right | exact Ey].
    + split; [intros _ | reflexivity]. exists x. split; [by left | exact Ex].
Qed.

Section AnyRecords.

Variable StringToNumber : string -> option Z.

(** The search, then the two other filters in one pass, then the sort. *)
Lemma filteredStocks_unfold (stocks : list object)
    (searchTerm sectorFilter signalFilter : string)
    (cfg : Screener.sort_config) :
  Screener.filteredStocks StringToNumber stocks searchTerm sectorFilter
    signalFilter cfg
  = (searched ←
       (if truthy (JStr searchTerm)
        then array_filter
               (Screener.search_callback (toLowerCase searchTerm)) stocks
        else Ok stocks);
     Ok (array_sort (Screener.comparator StringToNumber cfg)
           (List.filter (Spec.passes "" sectorFilter signalFilter)
              searched))).
Proof.
  unfold Screener.filteredStocks.
  destruct (if truthy (JStr searchTerm) then _ else _) as [searched|];
    [| reflexivity].
  cbn [mbind result_bind]. rewrite !optional_filter, filter_filter.
  do 2 f_equal.
Qed.

Lemma filteredStocks_kept (stocks view : list object)
    (searchTerm sectorFilter signalFilter : string)
    (cfg : Screener.sort_config) :
  Screener.filteredStocks StringToNumber stocks searchTerm sectorFilter
    signalFilter cfg = Ok view ->
  exists kept,
    kept `sublist_of` stocks
    /\ view = array_sort (Screener.comparator StringToNumber cfg) kept.
Proof.
  rewrite filteredStocks_unfold.
  destruct (if truthy (JStr searchTerm) then _ else _) as [searched|] eqn:E;
    [| discriminate].
  cbn [mbind result_bind]. intros [= <-]. eexists. split; [| reflexivity].
  etrans; [apply filter_sublist |].
  destruct (truthy (JStr searchTerm)).
  - by eapply array_filter_sublist.
  - by injection E as ->.
Qed.

(** X1. Whenever the view is computed, its records are records of the
    collection, none more often than the collection holds it: the count
    shown in the header never exceeds the total. *)
Theorem view_within_collection (stocks view : list object)
    (searchTerm sectorFilter signalFilter : string)
    (cfg : Screener.sort_config) :
  Screener.filteredStocks StringToNumber stocks searchTerm sectorFilter
    signalFilter cfg = Ok view ->
  view ⊆+ stocks
  /\ (List.length view <= List.length stocks)%nat
  /\ (List.length view = List.length stocks -> view ≡ₚ stocks).
Proof.
  intros (kept & Hsub & ->)%filteredStocks_kept.
  assert (H : array_sort (Screener.comparator StringToNumber cfg) kept
              ⊆+ stocks).
  { rewrite array_sort_perm. by apply sublist_submseteq. }
  split; [exact H |]. split; [by apply submseteq_length |].
  intros E. apply submseteq_length_Permutation; [exact H | lia].
Qed.

Lemma search_callback_raises (term : string) (r : object) :
  Screener.search_callback (toLowerCase term) r = TypeError
  <-> Order.search_raises term r.
Proof.
  unfold Screener.search_callback, Order.search_raises.
  destruct (prop r "symbol") as [| |b|z|sym]; simpl;
    destruct (prop r "name") as [| |c|y|nm]; simpl;
    try destruct (includes (toLowerCase sym) (toLowerCase term));
    simpl; split; try discriminate; try tauto;
    intros [[] | [E []]]; discriminate.
Qed.

(** X2. The derivation throws exactly when a search term is given and the
    collection holds a record on which the search callback throws: one
    whose symbol is a number or a boolean, or whose symbol does not match
    and whose name is a number or a boolean.  The sector and signal
    filters and the sort never throw. *)
Theorem view_raises_iff (stocks : list object)
    (searchTerm sectorFilter signalFilter : string)
    (cfg : Screener.sort_config) :
  Screener.filteredStocks StringToNumber stocks searchTerm sectorFilter
    signalFilter cfg = TypeError
  <-> searchTerm <> ""
      /\ exists r, r ∈ stocks /\ Order.search_raises searchTerm r.
Proof.
  rewrite filteredStocks_unfold. simpl.
  destruct (String.eqb_spec searchTerm "") as [->|Hne]; simpl.
  - split; [discriminate | intros [[] _]; reflexivity].
  - destruct (array_filter _ stocks) as [kept|] eqn:E;
      cbn [mbind result_bind].
    + split; [discriminate |]. intros (_ & r & Hr & Hraise).
      assert (R : array_filter
                    (Screener.search_callback (toLowerCase searchTerm))
                    stocks = TypeError).
      { apply array_filter_raises. exists r.
        split; [exact Hr | by apply search_callback_raises]. }
      congruence.
    + split; [intros _ | reflexivity]. split; [exact Hne |].
      apply array_filter_raises in E as (r & Hr & Hraise).
      exists r. split; [exact Hr | by apply search_callback_raises].
Qed.

End AnyRecords.

(** ** The order of the view *)

Section Ordered.

Variable StringToNumber : string -> option Z.

#[local] Instance key_le_trans (k : string) : Transitive (Order.key_le k).
Proof. unfold Order.key_le. intros a b c. lia. Qed.

Lemma comparator_numeric (cfg : Screener.sort_config) (a b : object) :
  Order.numeric_key (Screener.key cfg) a ->
  Order.numeric_key (Screener.key cfg) b ->
  Screener.comparator StringToNumber cfg a b
  = if String.eqb (Screener.direction cfg) "asc"
    then (if Order.key_number (Screener.key cfg) b
             <? Order.key_number (Screener.key cfg) a then 1 else -1)
    else (if Order.key_number (Screener.key cfg) a
             <? Order.key_number (Screener.key cfg) b then 1 else -1).
Proof.
  unfold Order.numeric_key, Order.key_number, Order.key_value.
  intros [x Ha] [y Hb]. unfold Screener.comparator, js_gt.
  by rewrite Ha, Hb.
Qed.

Lemma sort_ascending (cfg : Screener.sort_config) (l : list object) :
  Screener.direction cfg = "asc" ->
  Forall (Order.numeric_key (Screener.key cfg)) l ->
  Sorted (Order.key_le (Screener.key cfg))
    (array_sort (Screener.comparator StringToNumber cfg) l).
Proof.
  intros Hd. apply array_sort_sorted; intros a b Ha Hb;
    rewrite (comparator_numeric cfg a b Ha Hb), Hd; simpl;
    unfold Order.key_le;
    destruct (Z.ltb_spec (Order.key_number (Screener.key cfg) b)
                (Order.key_number (Screener.key cfg) a)); lia.
Qed.

Lemma sort_descending (cfg : Screener.sort_config) (l : list object) :
  Screener.direction cfg <> "asc" ->
  Forall (Order.numeric_key (Screener.key cfg)) l ->
  Sorted (flip (Order.key_le (Screener.key cfg)))
    (array_sort (Screener.comparator StringToNumber cfg) l).
Proof.
  intros Hd%String.eqb_neq. apply array_sort_sorted; intros a b Ha Hb;
    rewrite (comparator_numeric cfg a b Ha Hb), Hd;
    unfold flip, Order.key_le;
    destruct (Z.ltb_spec (Order.key_number (Screener.key cfg) a)
                (Order.key_number (Screener.key cfg) b)); lia.
Qed.

Lemma numeric_sublist (k : string) (kept stocks : list object) :
  kept `sublist_of` stocks ->
  Forall (Order.numeric_key k) stocks ->
  Forall (Order.numeric_key k) kept.
Proof.
  rewrite !Forall_forall. intros Hsub H r Hr.
  apply H. by eapply elem_of_sublist.
Qed.

Lemma missing_key_number (k : string) (r : object) :
  nullish (prop r k) = true ->
  Order.key_value k r = JNum 0.
Proof. unfold Order.key_value, coalesce. by intros ->. Qed.

(** C3. Whatever the collection and the sort key, a record whose
    sort-key value is missing ([null] or absent) is ordered exactly as if
    the value were 0.  The comparator answers the same on the records
    with 0 filled in, and so does the sort, position by position.
    Against a record whose key is the number [z] the comparator compares
    0 with [z]: ascending, the record with the missing key goes after
    exactly when [z] is negative, descending exactly when [z] is
    positive.  So in a collection whose keys are numbers or missing the
    view is in the order of the keys with 0 for the missing ones, and
    with no criteria it holds every record: a record with a missing key
    stands after those with a positive key and before those with a
    negative key when descending, the other way round when ascending.
    On the three records of the scenario, sorted by [momentum_score]
    descending, the view is [A, B, C] and the facets are "IT", "Pharma";
    with scores 2 and -3 around the missing one the view is 2, missing,
    -3 descending and -3, missing, 2 ascending. *)
Theorem missing_key_sorts_as_zero (NumberToString : Z -> string) :
  (forall cfg a b,
     Screener.comparator StringToNumber cfg a b
     = Screener.comparator StringToNumber cfg
         (Spec.zero_filled (Screener.key cfg) a)
         (Spec.zero_filled (Screener.key cfg) b))
  /\ (forall cfg (l : list object),
        Spec.zero_filled (Screener.key cfg)
          <$> array_sort (Screener.comparator StringToNumber cfg) l
        = array_sort (Screener.comparator StringToNumber cfg)
            (Spec.zero_filled (Screener.key cfg) <$> l))
  /\ (forall cfg a b z,
        nullish (prop a (Screener.key cfg)) = true ->
        prop b (Screener.key cfg) = JNum z ->
        Screener.comparator StringToNumber cfg a b
        = (if String.eqb (Screener.direction cfg) "asc"
           then (if z <? 0 then 1 else -1)
           else (if 0 <? z then 1 else -1))
        /\ Screener.comparator StringToNumber cfg b a
           = (if String.eqb (Screener.direction cfg) "asc"
              then (if 0 <? z then 1 else -1)
              else (if z <? 0 then 1 else -1)))
  /\ (forall k r,
        nullish (prop r k) = true ->
        Order.numeric_key k r /\ Order.key_number k r = 0)
  /\ (forall stocks searchTerm sectorFilter signalFilter cfg view,
        Forall (Order.numeric_key (Screener.key cfg)) stocks ->
        Screener.filteredStocks StringToNumber stocks searchTerm
          sectorFilter signalFilter cfg = Ok view ->
        if String.eqb (Screener.direction cfg) "asc"
        then StronglySorted (Order.key_le (Screener.key cfg)) view
        else StronglySorted (flip (Order.key_le (Screener.key cfg))) view)
  /\ (forall stocks cfg,
        exists view,
          Screener.filteredStocks StringToNumber stocks "" "" "" cfg
          = Ok view
          /\ view ≡ₚ stocks)
  /\ Screener.filteredStocks StringToNumber Sample.records "" "" ""
       Sample.byScoreDesc
     = Ok [Sample.A; Sample.B; Sample.C]
  /\ Screener.sectors NumberToString Sample.records
     = [JStr "IT"; JStr "Pharma"]
  /\ Screener.filteredStocks StringToNumber Sample.mixed "" "" ""
       Sample.byScoreDesc
     = Ok [Sample.gain; Sample.C; Sample.loss]
  /\ Screener.filteredStocks StringToNumber Sample.mixed "" "" ""
       Sample.byScoreAsc
     = Ok [Sample.loss; Sample.C; Sample.gain].
Proof.
  split_and!.
  - intros. by rewrite comparator_zero_filled.
  - intros cfg l. apply array_sort_natural.
    intros a b. apply comparator_zero_filled.
  - intros cfg a b z Ha Hb. unfold Screener.comparator, js_gt.
    fold (Order.key_value (Screener.key cfg) a).
    rewrite (missing_key_number _ _ Ha), Hb. by split.
  - intros k r Hr. unfold Order.numeric_key, Order.key_number.
    rewrite (missing_key_number _ _ Hr). split; [by exists 0 | done].
  - intros stocks searchTerm sectorFilter signalFilter cfg view Hnum
      (kept & Hsub & ->)%filteredStocks_kept.
    pose proof (numeric_sublist _ _ _ Hsub Hnum) as Hkept.
    destruct (String.eqb_spec (Screener.direction cfg) "asc") as [Hd | Hd];
      apply Sorted_StronglySorted; try apply _.
    + by apply sort_ascending.
    + by apply sort_descending.
  - intros stocks cfg. rewrite filteredStocks_unfold. simpl.
    eexists. split; [reflexivity |].
    by rewrite array_sort_perm, filter_true.
  - vm_compute. reflexivity.
  - vm_compute. reflexivity.
  - vm_compute. reflexivity.
  - vm_compute. reflexivity.
Qed.

(** X3. When the sort key of every record is a number or missing, the view
    is in order: sorted ascending, no record has a smaller key than a
    record before it; sorted descending, none has a larger one (a missing
    key counting as 0). *)
Theorem view_is_sorted (stocks view : list object)
    (searchTerm sectorFilter signalFilter : string)
    (cfg : Screener.sort_config) :
  Forall (Order.numeric_key (Screener.key cfg)) stocks ->
  Screener.filteredStocks StringToNumber stocks searchTerm sectorFilter
    signalFilter cfg = Ok view ->
  if String.eqb (Screener.direction cfg) "asc"
  then StronglySorted (Order.key_le (Screener.key cfg)) view
  else StronglySorted (flip (Order.key_le (Screener.key cfg))) view.
Proof.
  intros Hnum (kept & Hsub & ->)%filteredStocks_kept.
  pose proof (numeric_sublist _ _ _ Hsub Hnum) as Hkept.
  destruct (String.eqb_spec (Screener.direction cfg) "asc") as [Hd | Hd];
    apply Sorted_StronglySorted; try apply _.
  - by apply sort_ascending.
  - by apply sort_descending.
Qed.

(** X4. When the sort key of every record is a number or missing and no
    two records of the collection have the same key, the ascending view
    is the descending view read backwards: a click on the active header
    reverses the table. *)
Theorem ascending_is_descending_reversed (stocks up down : list object)
    (searchTerm sectorFilter signalFilter k : string) :
  Forall (Order.numeric_key k) stocks ->
  (forall a b, a ∈ stocks -> b ∈ stocks ->
     Order.key_number k a = Order.key_number k b -> a = b) ->
  Screener.filteredStocks StringToNumber stocks searchTerm sectorFilter
    signalFilter {| Screener.key := k; Screener.direction := "asc" |}
  = Ok up ->
  Screener.filteredStocks StringToNumber stocks searchTerm sectorFilter
    signalFilter {| Screener.key := k; Screener.direction := "desc" |}
  = Ok down ->
  up = reverse down.
Proof.
  intros Hnum Hdistinct. rewrite !filteredStocks_unfold.
  destruct (if truthy (JStr searchTerm) then _ else _) as [searched|] eqn:E;
    [| discriminate].
  cbn [mbind result_bind]. intros [= <-] [= <-].
  set (kept := List.filter _ searched).
  assert (Hsub : kept `sublist_of` stocks).
  { etrans; [apply filter_sublist |].
    destruct (truthy (JStr searchTerm)).
    - by eapply array_filter_sublist.
    - by injection E as ->. }
  pose proof (numeric_sublist _ _ _ Hsub Hnum) as Hkept.
  apply (Sorted_unique_strong (Order.key_le k)).
  - intros a b Ha Hb Hab Hba.
    rewrite array_sort_perm in Ha. rewrite reverse_Permutation,
      array_sort_perm in Hb.
    apply Hdistinct; try (by eapply elem_of_sublist).
    unfold Order.key_le in *. lia.
  - by apply (sort_ascending
                {| Screener.key := k; Screener.direction := "asc" |}).
  - apply (Sorted_reverse (flip (Order.key_le k))).
    by apply (sort_descending
                {| Screener.key := k; Screener.direction := "desc" |}).
  - by rewrite reverse_Permutation, !array_sort_perm.
Qed.

(** X5. A sector or signal filter only narrows: the view under the three
    criteria lies within the view with the sector filter emptied, within
    the view with the signal filter emptied, and within the view with
    the search emptied, each of which is computed when the first is. *)
Theorem filters_only_narrow (stocks view : list object)
    (searchTerm sectorFilter signalFilter : string)
    (cfg : Screener.sort_config) :
  Screener.filteredStocks StringToNumber stocks searchTerm sectorFilter
    signalFilter cfg = Ok view ->
  (exists wider,
     Screener.filteredStocks StringToNumber stocks searchTerm ""
       signalFilter cfg = Ok wider /\ view ⊆+ wider)
  /\ (exists wider,
        Screener.filteredStocks StringToNumber stocks searchTerm
          sectorFilter "" cfg = Ok wider /\ view ⊆+ wider)
  /\ (exists wider,
        Screener.filteredStocks StringToNumber stocks "" sectorFilter
          signalFilter cfg = Ok wider /\ view ⊆+ wider).
Proof.
  rewrite !filteredStocks_unfold.
  destruct (if truthy (JStr searchTerm) then _ else _) as [searched|] eqn:E;
    [| discriminate].
  cbn [mbind result_bind]. intros [= <-].
  assert (Hnarrow : forall (f g : object -> bool) (l : list object),
            (forall r, f r = true -> g r = true) ->
            List.filter f l `sublist_of` List.filter g l).
  { intros f g l Hfg. induction l as [|r l IH]; simpl; [constructor |].
    destruct (f r) eqn:Ef.
    - rewrite (Hfg r Ef). by constructor.
    - destruct (g r); by try constructor. }
  split_and!; eexists; (split; [reflexivity |]);
    rewrite !array_sort_perm; apply sublist_submseteq.
  - apply Hnarrow. intros r. unfold Spec.passes. simpl.
    rewrite !andb_true_iff. tauto.
  - apply Hnarrow. intros r. unfold Spec.passes. simpl.
    rewrite !andb_true_iff, orb_true_iff. tauto.
  - cbn [truthy String.eqb negb].
    revert E. destruct (truthy (JStr searchTerm)); intros E.
    + apply array_filter_sublist in E.
      induction E as [|r l1 l2 _ IH|r l1 l2 _ IH]; simpl;
        [constructor | |].
      * destruct (Spec.passes "" sectorFilter signalFilter r);
          by try constructor.
      * destruct (Spec.passes "" sectorFilter signalFilter r);
          by try constructor.
    + by injection E as ->.
Qed.

End Ordered.

(** ** The controls of the screener *)

Section Controls.

Variable StringToNumber : string -> option Z.
Variable NumberToString : Z -> string.

(** X6. Clear Filters brings every record back, in every state and whatever
    the records hold, and touches neither the collection nor the sort
    configuration. *)
Theorem clear_filters_shows_all (st : Screener.state) :
  let st' := Screener.step st Screener.ClearFilters in
  Screener.stocks st' = Screener.stocks st
  /\ Screener.sortConfig st' = Screener.sortConfig st
  /\ exists view,
       Screener.view StringToNumber st' = Ok view
       /\ view ≡ₚ Screener.stocks st.
Proof.
  simpl. split_and!; try reflexivity.
  unfold Screener.view. simpl. rewrite filteredStocks_unfold. simpl.
  eexists. split; [reflexivity |].
  by rewrite array_sort_perm, filter_true.
Qed.

(** X7. The sector list offers exactly the sector names that select
    something: a non-empty name is among the facets if and only if the
    view filtered on it alone is not empty, and that view then holds
    records of that sector only. *)
Theorem facet_selects_records (stocks : list object) (name : string)
    (cfg : Screener.sort_config) :
  name <> "" ->
  exists view,
    Screener.filteredStocks StringToNumber stocks "" name "" cfg = Ok view
    /\ (JStr name ∈ Screener.sectors NumberToString stocks <-> view <> [])
    /\ Forall (fun r => prop r "sector" = JStr name) view.
Proof.
  intros Hne. rewrite filteredStocks_unfold. simpl.
  eexists. split; [reflexivity |].
  set (kept := List.filter (Spec.passes "" name "") stocks).
  assert (Hkept : forall r, r ∈ kept <->
            r ∈ stocks /\ prop r "sector" = JStr name).
  { intros r. unfold kept.
    rewrite list_elem_of_In, filter_In, <- list_elem_of_In,
      passes_no_search.
    intuition congruence. }
  split.
  - rewrite sectors_elem. simpl.
    rewrite negb_true_iff, String.eqb_neq. split.
    + intros (_ & r & Hr & E) Hnil.
      assert (Hin : r ∈ kept) by (by apply Hkept).
      rewrite <- (array_sort_perm
                    (Screener.comparator StringToNumber cfg)), Hnil in Hin.
      by apply elem_of_nil in Hin.
    + intros Hnil. split; [exact Hne |].
      destruct (array_sort (Screener.comparator StringToNumber cfg) kept)
        as [|r rest] eqn:E; [done |].
      assert (Hin : r ∈ kept).
      { rewrite <- (array_sort_perm
                      (Screener.comparator StringToNumber cfg)), E.
        by left. }
      apply Hkept in Hin as [Hr Hs]. eauto.
  - apply Forall_forall. intros r Hr. rewrite array_sort_perm in Hr.
    by apply Hkept in Hr as [_ Hs].
Qed.

(** X8. Two clicks on the header of the active sort column restore the sort
    configuration, in every state of the screener; two clicks on another
    header leave that column the key, ascending. *)
Theorem two_header_clicks (st : Screener.state) (k : string) :
  Spec.reachable st ->
  let twice :=
    Screener.step (Screener.step st (Screener.HeaderClick k))
      (Screener.HeaderClick k) in
  (k = Screener.key (Screener.sortConfig st) ->
   Screener.sortConfig twice = Screener.sortConfig st)
  /\ (k <> Screener.key (Screener.sortConfig st) ->
      Screener.sortConfig twice
      = {| Screener.key := k; Screener.direction := "asc" |})
  /\ Screener.stocks twice = Screener.stocks st.
Proof.
  intros Hr. simpl. split_and!; try reflexivity.
  - intros ->. unfold Screener.handleSort. simpl.
    rewrite !String.eqb_refl.
    destruct (Screener.sortConfig st) as [key dir] eqn:E. simpl.
    pose proof (reachable_direction st Hr) as Hd. rewrite E in Hd.
    simpl in Hd. by destruct Hd as [-> | ->].
  - intros Hne. unfold Screener.handleSort. simpl.
    rewrite String.eqb_refl.
    destruct (String.eqb_spec (Screener.key (Screener.sortConfig st)) k);
      [congruence | reflexivity].
Qed.

(** X9. The arrow in a header tells how the table is sorted, in every state
    of the screener: a column shows an arrow exactly when it is the sort
    key, so no two columns do; under the up arrow the comparator applies
    its ascending rule and under the down arrow its descending rule. *)
Theorem sort_icon_tells_the_order (st : Screener.state) (column : string) :
  Spec.reachable st ->
  let cfg := Screener.sortConfig st in
  (ScreenerPage.SortIcon cfg column = ScreenerPage.BothWays
   <-> Screener.key cfg <> column)
  /\ (ScreenerPage.SortIcon cfg column = ScreenerPage.Up ->
      forall a b,
        Screener.comparator StringToNumber cfg a b
        = if js_gt StringToNumber (Order.key_value column a)
               (Order.key_value column b) then 1 else -1)
  /\ (ScreenerPage.SortIcon cfg column = ScreenerPage.Down ->
      forall a b,
        Screener.comparator StringToNumber cfg a b
        = if js_lt StringToNumber (Order.key_value column a)
               (Order.key_value column b) then 1 else -1).
Proof.
  intros Hr cfg. unfold ScreenerPage.SortIcon, Screener.comparator,
    Order.key_value.
  pose proof (reachable_direction st Hr) as Hd. fold cfg in Hd.
  destruct (String.eqb_spec (Screener.key cfg) column) as [E | E]; simpl.
  - rewrite E.
    destruct Hd as [-> | ->]; simpl; by split_and!.
  - by split_and!.
Qed.

(** Outside the states the screener can reach the arrow would not tell
    the order: a direction that is neither "asc" nor "desc" shows the up
    arrow while the comparator sorts descending. *)
Example sort_icon_needs_the_invariant :
  ScreenerPage.SortIcon
    {| Screener.key := "momentum_score"; Screener.direction := "up" |}
    "momentum_score" = ScreenerPage.Up
  /\ Screener.comparator Sample.StringToNumber
       {| Screener.key := "momentum_score"; Screener.direction := "up" |}
       Sample.A Sample.B = -1
  /\ Screener.comparator Sample.StringToNumber Sample.byScoreAsc
       Sample.A Sample.B = 1.
Proof. vm_compute. auto. Qed.

End Controls.

(** ** Loading and failing *)

Lemma error_stays (p : ScreenerPage.page) (e : ScreenerPage.event) :
  is_Some (ScreenerPage.error p) ->
  is_Some (ScreenerPage.error (ScreenerPage.step p e)).
Proof. destruct e; simpl; eauto. Qed.

Lemma error_stays_on (p : ScreenerPage.page) (es : list ScreenerPage.event) :
  is_Some (ScreenerPage.error p) ->
  is_Some (ScreenerPage.error (ScreenerPage.steps p es)).
Proof.
  unfold ScreenerPage.steps. revert p.
  induction es as [|e es IH]; intros p Hp; simpl; [exact Hp |].
  by apply IH, error_stays.
Qed.

(** X10. Nothing resets the error: once a fetch has failed, the page never
    shows the table again, whatever follows.  Not even a retry that
    succeeds brings it back: its records are stored, the loading flag is
    lowered, and the error panel is still what is shown. *)
Theorem failed_fetch_sticks (StringToNumber : string -> option Z)
    (p : ScreenerPage.page) (es : list ScreenerPage.event) :
  let after :=
    ScreenerPage.steps (ScreenerPage.step p ScreenerPage.FetchFailed) es in
  is_Some (ScreenerPage.error after)
  /\ (forall rows shown total,
        ScreenerPage.render StringToNumber after
        <> Ok (ScreenerPage.Table rows shown total))
  /\ forall data,
       let retried :=
         ScreenerPage.step after (ScreenerPage.FetchSucceeded data) in
       Screener.stocks (ScreenerPage.screener retried) = default [] data
       /\ ScreenerPage.loading retried = false
       /\ (ScreenerPage.render StringToNumber retried = TypeError
           \/ exists message,
                ScreenerPage.render StringToNumber retried
                = Ok (ScreenerPage.ErrorPanel message)).
Proof.
  intros after.
  assert (He : is_Some (ScreenerPage.error after)).
  { apply error_stays_on. simpl. eauto. }
  split_and!; [exact He | |].
  - intros rows shown total. unfold ScreenerPage.render.
    destruct (Screener.view _ _) as [rows'|]; [| discriminate].
    cbn [mbind result_bind].
    destruct (ScreenerPage.loading after); [discriminate |].
    destruct He as [message ->]. discriminate.
  - intros data retried. split_and!; try reflexivity.
    unfold ScreenerPage.render.
    destruct (Screener.view _ _) as [rows'|]; [| by left].
    cbn [mbind result_bind]. right.
    destruct He as [message He]. exists message.
    unfold retried. simpl. by rewrite He.
Qed.

(** Without a failure the table does come: mounted, then a fetch that
    succeeds, the page shows the table with its two counts. *)
Example table_after_first_fetch :
  ScreenerPage.render Sample.StringToNumber
    (ScreenerPage.steps ScreenerPage.mounted
       [ScreenerPage.FetchStarted;
        ScreenerPage.FetchSucceeded (Some Sample.records);
        ScreenerPage.Input (Screener.SectorSelect "IT")])
  = Ok (ScreenerPage.Table [Sample.A; Sample.B] 2 3).
Proof. vm_compute. reflexivity. Qed.

(** ** The styles *)

Lemma signalTypes_cases (P : string -> Prop) :
  P "Strong Buy" -> P "Buy" -> P "Hold" -> P "Sell" -> P "Avoid" ->
  forall s, s ∈ Api.signalTypes -> P s.
Proof.
  intros H1 H2 H3 H4 H5 s Hs. unfold Api.signalTypes in Hs.
  repeat (apply elem_of_cons in Hs as [-> | Hs]; [assumption |]).
  by apply elem_of_nil in Hs.
Qed.

(** X11. [getSignalColor] keeps the five signal types apart: two of them
    never get the same style, and the style of anything else (another
    text, a missing or ill-typed value) is the default one, which is
    none of theirs. *)
Theorem signal_colors_distinct :
  (forall s t, s ∈ Api.signalTypes -> t ∈ Api.signalTypes ->
     Api.getSignalColor (JStr s) = Api.getSignalColor (JStr t) -> s = t)
  /\ (forall v, (forall s, s ∈ Api.signalTypes -> v <> JStr s) ->
        Api.getSignalColor v = "text-dark-400 bg-dark-700")
  /\ (forall s, s ∈ Api.signalTypes ->
        Api.getSignalColor (JStr s) <> "text-dark-400 bg-dark-700").
Proof.
  split_and!.
  - intros s t Hs. revert t. revert s Hs.
    apply (signalTypes_cases
             (fun s => forall t, t ∈ Api.signalTypes ->
                Api.getSignalColor (JStr s) = Api.getSignalColor (JStr t)
                -> s = t));
      apply (signalTypes_cases
               (fun t => Api.getSignalColor (JStr _)
                         = Api.getSignalColor (JStr t) -> _ = t));
      vm_compute; intros E; (reflexivity || discriminate E).
  - intros v Hv. unfold Api.getSignalColor, strict_eq.
    repeat (rewrite bool_decide_eq_false_2;
            [| apply Hv; unfold Api.signalTypes; set_solver]).
    reflexivity.
  - apply signalTypes_cases; vm_compute; discriminate.
Qed.

Section Styles.

Variable StringToNumber : string -> option Z.

(** The index at which a lookup in a duplicate-free list of five finds
    a given gradient. *)
Ltac gradient_index Hnd H :=
  match type of H with
  | ?l !! ?i = Some ?s =>
      first
        [ assert (i = 0%nat) by (by apply (NoDup_lookup l i 0%nat s Hnd H))
        | assert (i = 1%nat) by (by apply (NoDup_lookup l i 1%nat s Hnd H))
        | assert (i = 2%nat) by (by apply (NoDup_lookup l i 2%nat s Hnd H))
        | assert (i = 3%nat) by (by apply (NoDup_lookup l i 3%nat s Hnd H))
        | assert (i = 4%nat) by (by apply (NoDup_lookup l i 4%nat s Hnd H)) ]
  end.

Lemma score_color_number (z : Z) :
  Api.getScoreColor StringToNumber (JNum z)
  = if 80 <=? z then "from-success-500 to-success-400"
    else if 70 <=? z then "from-success-600 to-success-500"
    else if 50 <=? z then "from-warning-500 to-warning-400"
    else if 40 <=? z then "from-warning-600 to-warning-500"
    else "from-danger-500 to-danger-400".
Proof. reflexivity. Qed.

(** X12. [getScoreColor] grades: its answer is always one of the five
    gradients; a higher score never gets a lower gradient than a lower
    score; the top gradient is that of the scores from 80 up; and a score
    that is missing, or that has no numeric reading, gets the lowest
    gradient, that of the scores below 40. *)
Theorem score_color_grades :
  (forall v, Api.getScoreColor StringToNumber v ∈ Api.scoreGradients)
  /\ (forall z z' i j,
        z <= z' ->
        Api.scoreGradients !! i
        = Some (Api.getScoreColor StringToNumber (JNum z)) ->
        Api.scoreGradients !! j
        = Some (Api.getScoreColor StringToNumber (JNum z')) ->
        (i <= j)%nat)
  /\ (forall z,
        Api.getScoreColor StringToNumber (JNum z)
        = "from-success-500 to-success-400" <-> 80 <= z)
  /\ (forall z,
        Api.getScoreColor StringToNumber (JNum z)
        = "from-danger-500 to-danger-400" <-> z < 40)
  /\ (forall v,
        ToNumber StringToNumber v = None ->
        Api.getScoreColor StringToNumber v
        = "from-danger-500 to-danger-400").
Proof.
  split_and!.
  - intros v. unfold Api.getScoreColor, Api.scoreGradients.
    repeat match goal with
      | |- context [js_ge ?f ?a ?b] => destruct (js_ge f a b)
      end; set_solver.
  - intros z z' i j Hz. rewrite !score_color_number.
    assert (Hnd : NoDup Api.scoreGradients)
      by (apply (bool_decide_unpack _); vm_compute; exact I).
    repeat match goal with
      | |- context [?a <=? ?b] => destruct (Z.leb_spec a b)
      end; try lia;
      intros Hi Hj; gradient_index Hnd Hi; gradient_index Hnd Hj; lia.
  - intros z. rewrite score_color_number.
    repeat match goal with
      | |- context [?a <=? ?b] => destruct (Z.leb_spec a b)
      end; split; (discriminate || lia || reflexivity).
  - intros z. rewrite score_color_number.
    repeat match goal with
      | |- context [?a <=? ?b] => destruct (Z.leb_spec a b)
      end; split; (discriminate || lia || reflexivity).
  - intros v Hv. unfold Api.getScoreColor, js_ge. rewrite Hv.
    by destruct v.
Qed.

Lemma rsi_status_number (z : Z) :
  StockDetail.text <$> StockDetail.getRsiStatus StringToNumber (JNum z)
  = if z =? 0 then None
    else if 70 <? z then Some "Overbought"
    else if z <? 30 then Some "Oversold"
    else if (50 <=? z) && (z <=? 65) then Some "Optimal"
    else Some "Neutral".
Proof.
  unfold StockDetail.getRsiStatus, js_gt, js_lt, js_ge, js_le. simpl.
  destruct (z =? 0); simpl; [reflexivity |].
  destruct (70 <? z); [reflexivity |].
  destruct (z <? 30); [reflexivity |].
  by destruct ((50 <=? z) && (z <=? 65)).
Qed.

(** X13. [getRsiStatus] on a number: Overbought above 70, Optimal from 50 to
    65, Oversold below 30 except at 0, where there is no status at all,
    as for a missing RSI, and Neutral in between (from 30 to below 50,
    and above 65 up to 70). *)
Theorem rsi_status_bands (z : Z) :
  let status :=
    StockDetail.text
      <$> StockDetail.getRsiStatus StringToNumber (JNum z) in
  (status = None <-> z = 0)
  /\ (status = Some "Overbought" <-> 70 < z)
  /\ (status = Some "Oversold" <-> z < 30 /\ z <> 0)
  /\ (status = Some "Optimal" <-> 50 <= z <= 65)
  /\ (status = Some "Neutral" <-> 30 <= z < 50 \/ 65 < z <= 70)
  /\ StockDetail.getRsiStatus StringToNumber JUndefined = None
  /\ StockDetail.getRsiStatus StringToNumber JNull = None.
Proof.
  intros status. unfold status. rewrite rsi_status_number.
  destruct (Z.eqb_spec z 0); [split_and!; try reflexivity; split;
    (discriminate || lia || reflexivity) |].
  destruct (Z.ltb_spec 70 z); [split_and!; try reflexivity; split;
    (discriminate || lia || reflexivity) |].
  destruct (Z.ltb_spec z 30); [split_and!; try reflexivity; split;
    (discriminate || lia || reflexivity) |].
  destruct (Z.leb_spec 50 z); destruct (Z.leb_spec z 65); simpl;
    split_and!; try reflexivity; split;
    (discriminate || lia || reflexivity).
Qed.

End Styles.

(** ** The list of signals *)

Lemma symbol_cell_ok (s : object) :
  Spec.text_or_absent (prop s "symbol") ->
  exists cell, Jsx.symbol_cell s = Ok cell.
Proof.
  unfold Jsx.symbol_cell. destruct (prop s "symbol"); try done; by eexists.
Qed.

Lemma symbol_cell_text (s : object) (cell : jsval) :
  Jsx.symbol_cell s = Ok cell ->
  Spec.text_or_absent (prop s "symbol").
Proof.
  unfold Jsx.symbol_cell. by destruct (prop s "symbol").
Qed.

Lemma symbol_cells_ok (l : list object) :
  Forall (fun s => Spec.text_or_absent (prop s "symbol")) l ->
  exists cells, Jsx.array_map Jsx.symbol_cell l = Ok cells.
Proof.
  induction 1 as [|s l Hs _ [cells IH]]; [by eexists |].
  cbn [Jsx.array_map]. destruct (symbol_cell_ok s Hs) as [cell ->].
  cbn [mbind result_bind]. rewrite IH. by eexists.
Qed.

Lemma symbol_cells_raise (l : list object) :
  ~ Forall (fun s => Spec.text_or_absent (prop s "symbol")) l ->
  Jsx.array_map Jsx.symbol_cell l = TypeError.
Proof.
  induction l as [|s l IH]; intros H.
  - destruct H. constructor.
  - cbn [Jsx.array_map].
    destruct (Jsx.symbol_cell s) as [cell|] eqn:E; [| reflexivity].
    cbn [mbind result_bind]. rewrite IH; [reflexivity |].
    intros Hl. apply H. constructor; [| exact Hl].
    by eapply symbol_cell_text.
Qed.

(** X14. While the Signals view is loading, as it is when mounted, it
    shows the skeleton and nothing else.  Once loading is over it shows
    the signals of the chosen type in the order they arrived in: the
    cards are a sublist of the signals, holding exactly those whose type
    is the filter (all of them when no filter is set), and "No signals
    found" is shown under them exactly when there is no card; when no
    data has arrived, as after a first fetch that failed, there is no
    card and "No signals found" is shown.  A signal to show whose symbol
    is a number or a boolean makes the component throw. *)
Theorem signals_shown_in_order (p : SignalsPage.page) :
  (SignalsPage.loading p = true ->
   SignalsPage.render p = Ok SignalsPage.Skeleton)
  /\ (SignalsPage.loading p = false ->
      match Signals.signals (SignalsPage.content p) with
      | Some arrived =>
          exists shown,
            Signals.filteredSignals (SignalsPage.content p) = Some shown
            /\ shown `sublist_of` arrived
            /\ (forall s, s ∈ shown <->
                  s ∈ arrived
                  /\ (Signals.filter (SignalsPage.content p) = ""
                      \/ prop s "signal_type"
                         = JStr (Signals.filter (SignalsPage.content p))))
            /\ (Forall (fun s => Spec.text_or_absent (prop s "symbol"))
                  shown ->
                SignalsPage.render p
                = Ok (SignalsPage.Cards shown
                        (Nat.eqb (List.length shown) 0)))
            /\ (~ Forall (fun s => Spec.text_or_absent (prop s "symbol"))
                    shown ->
                SignalsPage.render p = TypeError)
      | None => SignalsPage.render p = Ok (SignalsPage.Cards [] true)
      end)
  /\ SignalsPage.render SignalsPage.mounted = Ok SignalsPage.Skeleton
  /\ SignalsPage.render
       (SignalsPage.step
          (SignalsPage.step SignalsPage.mounted SignalsPage.FetchStarted)
          SignalsPage.FetchFailed)
     = Ok (SignalsPage.Cards [] true).
Proof.
  split_and!; try reflexivity.
  - unfold SignalsPage.render. by intros ->.
  - unfold SignalsPage.render, SignalsPage.noSignals. intros ->.
    destruct p as [[signals filter] loading]. simpl.
    unfold Signals.filteredSignals. simpl.
    destruct signals as [arrived|]; simpl; [| by destruct (negb _)].
    assert (Hshow : forall shown,
              (Forall (fun s => Spec.text_or_absent (prop s "symbol"))
                 shown ->
               (_ ← Jsx.array_map Jsx.symbol_cell shown;
                Ok (SignalsPage.Cards shown
                      (Nat.eqb (List.length shown) 0)))
               = Ok (SignalsPage.Cards shown
                       (Nat.eqb (List.length shown) 0)))
              /\ (~ Forall (fun s => Spec.text_or_absent (prop s "symbol"))
                      shown ->
                  (_ ← Jsx.array_map Jsx.symbol_cell shown;
                   Ok (SignalsPage.Cards shown
                         (Nat.eqb (List.length shown) 0)))
                  = TypeError)).
    { intros shown. split.
      - intros [cells ->]%symbol_cells_ok. reflexivity.
      - intros ->%symbol_cells_raise. reflexivity. }
    destruct (String.eqb_spec filter "") as [E | E]; simpl.
    + exists arrived. split_and!; [done | done | | apply Hshow..].
      intros s. tauto.
    + eexists. split_and!;
        [done | apply filter_sublist | | apply Hshow..].
      intros s.
      rewrite list_elem_of_In, filter_In, <- list_elem_of_In.
      unfold Screener.signal_callback, strict_eq.
      rewrite bool_decide_eq_true. tauto.
Qed.

(** X15. Two clicks on the same summary card: the filter comes back when it
    was that type or empty, and is lost (left empty) when it was another
    type; the cross of the filter indicator empties it in any case. *)
Theorem two_card_clicks (st : Signals.state) (type : string) :
  type <> "" ->
  let twice := Signals.cardClick type (Signals.cardClick type st) in
  Signals.signals twice = Signals.signals st
  /\ Signals.filter twice
     = (if String.eqb (Signals.filter st) type then type else "")
  /\ (twice = st <->
      Signals.filter st = type \/ Signals.filter st = "")
  /\ Signals.filter (SignalsPage.clearClick st) = "".
Proof.
  intros Hne. destruct st as [signals filter]. simpl.
  unfold Signals.cardClick, Signals.setFilter. simpl.
  destruct (String.eqb_spec filter type) as [-> | Hf]; simpl.
  - destruct type as [|c rest]; [done |]. simpl.
    split_and!; try done. split; auto.
  - rewrite String.eqb_refl. split_and!; try done. split.
    + intros [= <-]. by right.
    + intros [-> | ->]; [done | reflexivity].
Qed.

(** ** Typing in the search box *)

Lemma append_empty_l (t : string) : String.append "" t = t.
Proof. reflexivity. Qed.

Lemma toLowerCase_empty (s : string) : toLowerCase s = "" <-> s = "".
Proof. destruct s; simpl; split; (reflexivity || discriminate). Qed.

Lemma append_assoc (s t u : string) :
  String.append (String.append s t) u
  = String.append s (String.append t u).
Proof.
  induction s as [|c s IH]; [reflexivity |].
  rewrite !append_cons. by rewrite IH.
Qed.

Lemma includes_longer (s t1 t2 : string) :
  Spec.substring t1 t2 -> includes s t2 = true -> includes s t1 = true.
Proof.
  rewrite !includes_substring.
  intros (p1 & q1 & ->) (p2 & q2 & ->).
  exists (String.append p2 p1), (String.append q1 q2).
  by rewrite !append_assoc.
Qed.

Lemma array_filter_weaker {A} (f1 f2 : A -> result bool)
    (arr kept2 : list A) :
  (forall x b2, f2 x = Ok b2 ->
     exists b1, f1 x = Ok b1 /\ (b2 = true -> b1 = true)) ->
  array_filter f2 arr = Ok kept2 ->
  exists kept1,
    array_filter f1 arr = Ok kept1 /\ kept2 `sublist_of` kept1.
Proof.
  intros Hf. revert kept2.
  induction arr as [|x arr IH]; simpl; intros kept2.
  - intros [= <-]. by exists [].
  - destruct (f2 x) as [b2|] eqn:E2; [| discriminate].
    destruct (array_filter f2 arr) as [rest2|]; [| discriminate].
    cbn [mbind result_bind]. intros [= <-].
    destruct (Hf x b2 E2) as (b1 & -> & Hb).
    destruct (IH rest2 eq_refl) as (rest1 & -> & Hsub).
    cbn [mbind result_bind]. eexists. split; [reflexivity |].
    destruct b2; [rewrite Hb by done; by constructor |].
    destruct b1; by try constructor.
Qed.

Section Typing.

Variable StringToNumber : string -> option Z.

Lemma lowered_includes_weaker (v : jsval) (t1 t2 : string) (j2 : jsval) :
  (forall s, includes s t2 = true -> includes s t1 = true) ->
  Screener.lowered_includes v t2 = Ok j2 ->
  exists j1,
    Screener.lowered_includes v t1 = Ok j1
    /\ (truthy j2 = true -> truthy j1 = true).
Proof.
  intros Hinc. destruct v as [| |b|z|s]; simpl; try discriminate;
    intros [= <-]; eexists; (split; [reflexivity |]); simpl; auto.
Qed.

Lemma search_callback_weaker (t1 t2 : string) (r : object) (b2 : bool) :
  Spec.substring (toLowerCase t1) (toLowerCase t2) ->
  Screener.search_callback (toLowerCase t2) r = Ok b2 ->
  exists b1,
    Screener.search_callback (toLowerCase t1) r = Ok b1
    /\ (b2 = true -> b1 = true).
Proof.
  intros Hsub.
  assert (Hinc := fun s => includes_longer s _ _ Hsub).
  unfold Screener.search_callback.
  destruct (Screener.lowered_includes (prop r "symbol") (toLowerCase t2))
    as [j2|] eqn:E2; [| discriminate].
  destruct (lowered_includes_weaker _ _ _ _ Hinc E2) as (j1 & -> & Hj).
  cbn [mbind result_bind].
  destruct (truthy j2).
  - rewrite Hj by done. intros [= <-]. by eexists.
  - destruct (Screener.lowered_includes (prop r "name") (toLowerCase t2))
      as [n2|] eqn:N2; [| discriminate].
    destruct (lowered_includes_weaker _ _ _ _ Hinc N2) as (n1 & -> & Hn).
    cbn [mbind result_bind]. intros [= <-].
    destruct (truthy j1); by eexists.
Qed.

(** X16. A term whose lower-cased form contains the lower-cased form of
    another narrows the table: when the view is computed for the first,
    it is computed for the second and lies within that view.  (Typing
    more plain letters into the search box gives such a term; the search
    compares the lower-cased forms only.) *)
Theorem longer_term_narrows (stocks view : list object)
    (shorter longer sectorFilter signalFilter : string)
    (cfg : Screener.sort_config) :
  Spec.substring (toLowerCase shorter) (toLowerCase longer) ->
  Screener.filteredStocks StringToNumber stocks longer sectorFilter
    signalFilter cfg = Ok view ->
  exists wider,
    Screener.filteredStocks StringToNumber stocks shorter sectorFilter
      signalFilter cfg = Ok wider
    /\ view ⊆+ wider.
Proof.
  intros Hsub. rewrite !filteredStocks_unfold.
  assert (Hpass : forall l1 l2 : list object,
            l2 `sublist_of` l1 ->
            array_sort (Screener.comparator StringToNumber cfg)
              (List.filter (Spec.passes "" sectorFilter signalFilter) l2)
            ⊆+ array_sort (Screener.comparator StringToNumber cfg)
                 (List.filter (Spec.passes "" sectorFilter signalFilter)
                    l1)).
  { intros l1 l2 H. rewrite !array_sort_perm. apply sublist_submseteq.
    induction H as [|r k1 k2 _ IH|r k1 k2 _ IH]; simpl; [constructor | |];
      destruct (Spec.passes "" sectorFilter signalFilter r);
      by try constructor. }
  destruct (if truthy (JStr longer) then _ else _) as [kept2|] eqn:E2;
    [| discriminate].
  cbn [mbind result_bind]. intros [= <-].
  assert (Hk2 : kept2 `sublist_of` stocks).
  { destruct (truthy (JStr longer)).
    - by eapply array_filter_sublist.
    - by injection E2 as ->. }
  destruct (truthy (JStr shorter)) eqn:Es.
  - assert (El : truthy (JStr longer) = true).
    { simpl in *. apply negb_true_iff, String.eqb_neq in Es.
      apply negb_true_iff, String.eqb_neq. intros ->.
      destruct Hsub as (pre & post & Hsub). simpl in Hsub.
      destruct pre; [| discriminate].
      rewrite append_empty_l in Hsub.
      destruct (toLowerCase shorter) eqn:El; [| discriminate].
      by apply (proj1 (toLowerCase_empty _)) in El. }
    rewrite El in E2.
    destruct (array_filter_weaker
                (Screener.search_callback (toLowerCase shorter))
                (Screener.search_callback (toLowerCase longer))
                stocks kept2) as (kept1 & -> & H); [| exact E2 |].
    { intros r b2. by apply search_callback_weaker. }
    cbn [mbind result_bind]. eexists. split; [reflexivity |].
    by apply Hpass.
  - cbn [mbind result_bind]. eexists. split; [reflexivity |].
    by apply Hpass.
Qed.

(** X17. The search does not look at the case of the term: two terms that
    differ in case only give the same view, or throw alike. *)
Theorem search_ignores_term_case (stocks : list object)
    (term term' sectorFilter signalFilter : string)
    (cfg : Screener.sort_config) :
  toLowerCase term = toLowerCase term' ->
  Screener.filteredStocks StringToNumber stocks term sectorFilter
    signalFilter cfg
  = Screener.filteredStocks StringToNumber stocks term' sectorFilter
      signalFilter cfg.
Proof.
  intros E. unfold Screener.filteredStocks.
  assert (Et : truthy (JStr term) = truthy (JStr term')).
  { simpl. f_equal.
    destruct (String.eqb_spec term ""), (String.eqb_spec term' "");
      try reflexivity; subst; simpl in E.
    - symmetry in E. apply (proj1 (toLowerCase_empty _)) in E.
      contradiction.
    - apply (proj1 (toLowerCase_empty _)) in E. contradiction. }
  by rewrite Et, E.
Qed.

End Typing.

(** ** These properties on the sample data *)

Ltac numeric_records := all_records ltac:(eexists; reflexivity).

Lemma view_within_collection_scenario :
  [Sample.B] ⊆+ Sample.records
  /\ (List.length [Sample.B] <= List.length Sample.records)%nat.
Proof.
  destruct (view_within_collection Sample.StringToNumber Sample.records
              [Sample.B] "b" "" "" Sample.byScoreDesc) as (H1 & H2 & _).
  - vm_compute. reflexivity.
  - by split.
Defined.

Lemma view_is_sorted_scenario :
  StronglySorted (flip (Order.key_le "momentum_score"))
    [Sample.A; Sample.B; Sample.C].
Proof.
  apply (view_is_sorted Sample.StringToNumber Sample.records
           [Sample.A; Sample.B; Sample.C] "" "" "" Sample.byScoreDesc).
  - numeric_records.
  - vm_compute. reflexivity.
Defined.

Lemma ascending_is_descending_reversed_scenario :
  [Sample.C; Sample.B; Sample.A] = reverse [Sample.A; Sample.B; Sample.C].
Proof.
  apply (ascending_is_descending_reversed Sample.StringToNumber
           Sample.records [Sample.C; Sample.B; Sample.A]
           [Sample.A; Sample.B; Sample.C] "" "" "" "momentum_score").
  - numeric_records.
  - intros a b Ha Hb. unfold Sample.records in Ha, Hb.
    repeat (apply elem_of_cons in Ha as [-> | Ha]);
      try (by apply elem_of_nil in Ha);
      repeat (apply elem_of_cons in Hb as [-> | Hb]);
      try (by apply elem_of_nil in Hb);
      vm_compute; intros E; (reflexivity || discriminate E).
  - vm_compute. reflexivity.
  - vm_compute. reflexivity.
Defined.

Lemma filters_only_narrow_scenario :
  exists wider,
    Screener.filteredStocks Sample.StringToNumber Sample.records "" ""
      "" Sample.byScoreDesc = Ok wider
    /\ [Sample.A; Sample.B] ⊆+ wider.
Proof.
  destruct (filters_only_narrow Sample.StringToNumber Sample.records
              [Sample.A; Sample.B] "" "IT" "" Sample.byScoreDesc)
    as (H & _).
  - vm_compute. reflexivity.
  - exact H.
Defined.

Lemma facet_selects_records_scenario :
  "IT" <> ""
  /\ exists view,
       Screener.filteredStocks Sample.StringToNumber Sample.records "" "IT"
         "" Sample.byScoreDesc = Ok view
       /\ (JStr "IT"
             ∈ Screener.sectors Sample.NumberToString Sample.records
           <-> view <> [])
       /\ Forall (fun r => prop r "sector" = JStr "IT") view.
Proof.
  split; [discriminate |].
  apply (facet_selects_records Sample.StringToNumber Sample.NumberToString
           Sample.records "IT" Sample.byScoreDesc).
  discriminate.
Defined.

Lemma two_header_clicks_scenario :
  Screener.sortConfig
    (Screener.step
       (Screener.step Screener.initial
          (Screener.HeaderClick "momentum_score"))
       (Screener.HeaderClick "momentum_score"))
  = Screener.sortConfig Screener.initial.
Proof.
  destruct (two_header_clicks Screener.initial "momentum_score"
              Spec.reachable_initial) as (H & _).
  by apply H.
Defined.

Lemma sort_icon_tells_the_order_scenario :
  ScreenerPage.SortIcon (Screener.sortConfig Screener.initial)
    "momentum_score" = ScreenerPage.Down
  /\ Screener.comparator Sample.StringToNumber
       (Screener.sortConfig Screener.initial) Sample.A Sample.B
     = if js_lt Sample.StringToNumber
            (Order.key_value "momentum_score" Sample.A)
            (Order.key_value "momentum_score" Sample.B) then 1 else -1.
Proof.
  split; [reflexivity |].
  destruct (sort_icon_tells_the_order Sample.StringToNumber
              Screener.initial "momentum_score" Spec.reachable_initial)
    as (_ & _ & H).
  by apply H.
Defined.

Lemma signal_colors_distinct_scenario :
  Api.getSignalColor (JStr "Watch") = "text-dark-400 bg-dark-700".
Proof.
  apply (proj1 (proj2 signal_colors_distinct)).
  apply signalTypes_cases; discriminate.
Defined.

Lemma score_color_grades_scenario :
  45 <= 75 /\ (1 <= 3)%nat.
Proof.
  split; [lia |].
  apply (proj1 (proj2 (score_color_grades Sample.StringToNumber))
           45 75 1%nat 3%nat); [lia | reflexivity | reflexivity].
Defined.

Lemma two_card_clicks_scenario :
  "Buy" <> ""
  /\ Signals.cardClick "Buy" (Signals.cardClick "Buy" Sample.buyOnly)
     = Sample.buyOnly.
Proof.
  split; [discriminate |].
  destruct (two_card_clicks Sample.buyOnly "Buy") as (_ & _ & H & _);
    [discriminate |].
  apply H. by left.
Defined.

Lemma longer_term_narrows_scenario :
  Spec.substring (toLowerCase "re") (toLowerCase "REL")
  /\ exists wider,
       Screener.filteredStocks Sample.StringToNumber
         [Sample.reliance; Sample.infosys; Sample.A] "re" "" ""
         Sample.byScoreDesc = Ok wider
       /\ [Sample.reliance] ⊆+ wider.
Proof.
  assert (H : Spec.substring (toLowerCase "re") (toLowerCase "REL"))
    by (by exists "", "l").
  split; [exact H |].
  apply (longer_term_narrows Sample.StringToNumber
           [Sample.reliance; Sample.infosys; Sample.A] [Sample.reliance]
           "re" "REL" "" "" Sample.byScoreDesc H).
  vm_compute. reflexivity.
Defined.

Lemma search_ignores_term_case_scenario :
  Screener.filteredStocks Sample.StringToNumber Sample.records "B" "" ""
    Sample.byScoreDesc
  = Screener.filteredStocks Sample.StringToNumber Sample.records "b" ""
      "" Sample.byScoreDesc.
Proof.
  apply (search_ignores_term_case Sample.StringToNumber). reflexivity.
Defined.

Lemma missing_key_sorts_as_zero_scenario :
  StronglySorted (flip (Order.key_le "momentum_score"))
    [Sample.gain; Sample.C; Sample.loss].
Proof.
  destruct (missing_key_sorts_as_zero Sample.StringToNumber
              Sample.NumberToString) as (_ & _ & _ & _ & H & _).
  apply (H Sample.mixed "" "" "" Sample.byScoreDesc).
  - numeric_records.
  - vm_compute. reflexivity.
Defined.

Lemma signals_shown_in_order_scenario :
  SignalsPage.render
    (SignalsPage.step SignalsPage.mounted
       (SignalsPage.FetchSucceeded
          (Some [Sample.infosys; Sample.reliance])))
  = Ok (SignalsPage.Cards [Sample.infosys; Sample.reliance] false).
Proof.
  destruct (signals_shown_in_order
              (SignalsPage.step SignalsPage.mounted
                 (SignalsPage.FetchSucceeded
                    (Some [Sample.infosys; Sample.reliance]))))
    as (_ & H & _).
  destruct (H eq_refl) as (shown & E & _ & _ & Hok & _).
  injection E as <-. apply Hok.
  all_records ltac:(vm_compute; tauto).
Defined.
